(** * useApiRequest: the request orchestrator and its cache

    A shallow embedding of [src/useApiRequest.ts].  The hook keeps five
    pieces of React state ([data], [status], [error], [retryCount],
    [isFetched]), shares one module-level [cache] object between all its
    instances, and runs the host's [requestFn] inside [fetchWithRetry].

    Modelling choices, all stated here once:
    - JavaScript values are the inductive [value]; numbers are the integers
      (no NaN, no fractions);  [truthy] is JavaScript's ToBoolean on them.
    - The module-level [cache] object is a [gmap string CacheItem.t]: the
      map of its own entries.  The prototype of that object is not
      modelled.  The source's object treats some property names specially
      (["__proto__"]: assignment sets the prototype and [delete] removes
      nothing; the names inherited from [Object.prototype]: an absent entry
      reads as a function, not as [undefined]); a statement that would
      differ for such a key excludes it by a hypothesis, see [specialKeys].
    - [Date.now()] is the [now] field of the [World]; timers advance it by
      the requested number of milliseconds, a request by the latency the
      host gives for it.
    - React state setters never read the state, so the five cells are a
      record written in program order.
    - The code is asynchronous; one [fetch] is run to its settlement with no
      other task interleaved.  What an observer can see while the task is
      suspended is recorded in [frames].
    - The host's [requestFn] settles every time it is called; what it
      settles with is given per invocation by [Host.requestFn].
    - [onSuccess] and [onError] are host callbacks that return normally;
      their calls are recorded in [log]. *)

From stdpp Require Import gmap strings list.
From Stdlib Require Import ZArith Lia.

#[local] Open Scope Z_scope.

(** ** JavaScript values *)

Inductive value : Type :=
| VNull
| VUndefined
| VBool (b : bool)
| VNum (n : Z)
| VStr (s : string)
| VObj (ref : nat).

#[global] Instance value_eq_dec : EqDecision value.
Proof. solve_decision. Defined.

(** ToBoolean *)
Definition truthy (v : value) : bool :=
  match v with
  | VNull | VUndefined => false
  | VBool b => b
  | VNum n => negb (n =? 0)
  | VStr s => negb (String.eqb s "")
  | VObj _ => true
  end.

(** [v !== null] *)
Definition not_null (v : value) : bool :=
  match v with
  | VNull => false
  | _ => true
  end.

(** [a || b] *)
Definition js_or (a b : value) : value := if truthy a then a else b.

(** ** Types of the hook *)

Inductive RequestStatus : Type := Idle | Loading | Success | Error.

#[global] Instance RequestStatus_eq_dec : EqDecision RequestStatus.
Proof. solve_decision. Defined.

(** The [options] argument as the host passes it: an absent field is
    [None] (a callback: [false]). *)
Record UseApiRequestOptions : Type := {
  opt_manual : option bool;
  opt_deps : option (list value);
  opt_initialData : option value;
  opt_onSuccess : bool;
  opt_onError : bool;
  opt_delay : option Z;
  opt_cache : option bool;
  opt_cacheKey : option string;
  opt_cacheTTL : option Z;
  opt_autoRetry : option bool;
  opt_maxRetries : option Z;
  opt_retryDelay : option (nat -> Z)
}.

(** The destructured options, lines 99-112. *)
Record Config : Type := {
  manual : bool;
  deps : list value;
  initialData : value;
  onSuccess : bool;
  onError : bool;
  delay : Z;
  shouldCache : bool;
  cacheKey : option string;
  cacheTTL : Z;
  autoRetry : bool;
  maxRetries : Z;
  retryDelay : nat -> Z
}.

(** Line 111: [(attempt) => Math.min(1000 * 2 ** attempt, 30000)]. *)
Definition defaultRetryDelay (attempt : nat) : Z :=
  Z.min (1000 * 2 ^ Z.of_nat attempt) 30000.

(** A destructuring default replaces [undefined] only. *)
Definition orDefault (o : option value) (d : value) : value :=
  match o with
  | None | Some VUndefined => d
  | Some v => v
  end.

Definition destructure (options : UseApiRequestOptions) : Config := {|
  manual := default false (opt_manual options);
  deps := default [] (opt_deps options);
  initialData := orDefault (opt_initialData options) VNull;
  onSuccess := opt_onSuccess options;
  onError := opt_onError options;
  delay := default 0 (opt_delay options);
  shouldCache := default false (opt_cache options);
  cacheKey := opt_cacheKey options;
  cacheTTL := default (5 * 60 * 1000) (opt_cacheTTL options);
  autoRetry := default false (opt_autoRetry options);
  maxRetries := default 3 (opt_maxRetries options);
  retryDelay := default defaultRetryDelay (opt_retryDelay options)
|}.

(** [options = {}] *)
Definition noOptions : UseApiRequestOptions := {|
  opt_manual := None; opt_deps := None; opt_initialData := None;
  opt_onSuccess := false; opt_onError := false; opt_delay := None;
  opt_cache := None; opt_cacheKey := None; opt_cacheTTL := None;
  opt_autoRetry := None; opt_maxRetries := None; opt_retryDelay := None
|}.

Module CacheItem.
Record t : Type := { data : value; timestamp : Z }.
End CacheItem.

Record HookState : Type := {
  data : value;
  status : RequestStatus;
  error : value;
  retryCount : nat;
  isFetched : bool
}.

Inductive event : Type :=
| Sleep (ms : Z)
| Request (n : nat)
| OnSuccess (d : value)
| OnError (e : value).

Record World : Type := {
  hook : HookState;
  cache : gmap string CacheItem.t;
  now : Z;
  calls : nat;
  log : list event;
  frames : list HookState
}.

(** What a promise returned by the host's operation settles with. *)
Inductive settlement : Type :=
| Resolve (v : value)
| Reject (e : value).

Module Host.
Record t : Type := {
  requestFn : nat -> settlement;
  latency : nat -> Z
}.
End Host.

(** ** The monad of the hook's code: state, exceptions, and a task that has
    not settled *)

Inductive completion (A : Type) : Type :=
| Normal (a : A)
| Thrown (e : value)
| Pending.

Arguments Normal {A} a.
Arguments Thrown {A} e.
Arguments Pending {A}.

Definition M (A : Type) : Type := World -> completion A * World.

Definition ret {A} (a : A) : M A := fun w => (Normal a, w).

Definition bind {A B} (m : M A) (k : A -> M B) : M B :=
  fun w =>
    match m w with
    | (Normal a, w') => k a w'
    | (Thrown e, w') => (Thrown e, w')
    | (Pending, w') => (Pending, w')
    end.

Definition throw {A} (e : value) : M A := fun w => (Thrown e, w).

Definition pending {A} : M A := fun w => (Pending, w).

Definition try_catch {A} (body : M A) (handler : value -> M A) : M A :=
  fun w =>
    match body w with
    | (Thrown e, w') => handler e w'
    | r => r
    end.

Definition gets {A} (f : World -> A) : M A := fun w => (Normal (f w), w).

Definition modify (f : World -> World) : M unit := fun w => (Normal tt, f w).

Definition when (b : bool) (m : M unit) : M unit := if b then m else ret tt.

Declare Scope hook_scope.
Delimit Scope hook_scope with hook.

Notation "x <- m ;; k" := (bind m (fun x => k))
  (at level 100, m at next level, right associativity) : hook_scope.
Notation "m ;; k" := (bind m (fun _ => k))
  (at level 100, right associativity) : hook_scope.
Notation "'try' body 'catch' x '=>' h" := (try_catch body (fun x => h))
  (at level 100, x name, body at level 200, h at level 200) : hook_scope.

Definition outcome {A} (m : M A) (w : World) : completion A := fst (m w).
Definition exec {A} (m : M A) (w : World) : World := snd (m w).

(** ** World updates *)

Definition with_hook (f : HookState -> HookState) (w : World) : World :=
  {| hook := f (hook w); cache := cache w; now := now w;
     calls := calls w; log := log w; frames := frames w |}.

Definition with_cache (f : gmap string CacheItem.t -> gmap string CacheItem.t)
    (w : World) : World :=
  {| hook := hook w; cache := f (cache w); now := now w;
     calls := calls w; log := log w; frames := frames w |}.

Definition emit (e : event) (w : World) : World :=
  {| hook := hook w; cache := cache w; now := now w;
     calls := calls w; log := e :: log w; frames := frames w |}.

(** The task is suspended for [ms] milliseconds; observers see the hook
    state as it is now. *)
Definition suspend (ms : Z) (w : World) : World :=
  {| hook := hook w; cache := cache w; now := now w + ms;
     calls := calls w; log := log w; frames := hook w :: frames w |}.

(** The React state setters. *)
Definition setDataState (v : value) : M unit :=
  modify (with_hook (fun h =>
    {| data := v; status := status h; error := error h;
       retryCount := retryCount h; isFetched := isFetched h |})).

Definition setStatus (s : RequestStatus) : M unit :=
  modify (with_hook (fun h =>
    {| data := data h; status := s; error := error h;
       retryCount := retryCount h; isFetched := isFetched h |})).

Definition setError (e : value) : M unit :=
  modify (with_hook (fun h =>
    {| data := data h; status := status h; error := e;
       retryCount := retryCount h; isFetched := isFetched h |})).

Definition setRetryCount (n : nat) : M unit :=
  modify (with_hook (fun h =>
    {| data := data h; status := status h; error := error h;
       retryCount := n; isFetched := isFetched h |})).

Definition setIsFetched (b : bool) : M unit :=
  modify (with_hook (fun h =>
    {| data := data h; status := status h; error := error h;
       retryCount := retryCount h; isFetched := b |})).

(** [Date.now()] *)
Definition Date_now : M Z := gets now.

(** [await new Promise(resolve => setTimeout(resolve, ms))]; a negative
    delay is a delay of zero. *)
Definition setTimeout (ms : Z) : M unit :=
  modify (fun w => suspend (Z.max 0 ms) (emit (Sleep ms) w)).

(** [cb?.(arg)] *)
Definition callback (present : bool) (e : event) : M unit :=
  when present (modify (emit e)).

(** [await requestFnRef.current()]: the next invocation of the host's
    operation.  A rejection is thrown at the [await]. *)
Definition awaitRequest (host : Host.t) : M value :=
  fun w =>
    let n := calls w in
    let w' :=
      suspend (Host.latency host n)
        {| hook := hook w; cache := cache w; now := now w;
           calls := S n; log := Request n :: log w; frames := frames w |} in
    match Host.requestFn host n with
    | Resolve v => (Normal v, w')
    | Reject e => (Thrown e, w')
    end.

(** ** The hook *)

Section Hook.

Variable cfg : Config.
Variable host : Host.t.

#[local] Open Scope hook_scope.

(** The key under which this instance reads and writes the cache: the
    value of [cacheKey] where [shouldCache && cacheKey] is truthy. *)
Definition cacheSlot : option string :=
  if shouldCache cfg then
    match cacheKey cfg with
    | Some key => if truthy (VStr key) then Some key else None
    | None => None
    end
  else None.

(** [cache[cacheKey] = { data: v, timestamp: Date.now() }] *)
Definition cacheWrite (key : string) (v : value) : M unit :=
  t <- Date_now ;;
  modify (with_cache (insert key {| CacheItem.data := v; CacheItem.timestamp := t |})).

(** Lines 121-134. *)
Definition getCachedData : M value :=
  match cacheSlot with
  | None => ret VNull
  | Some key =>
    cachedItem <- gets (fun w => cache w !! key) ;;
    match cachedItem with
    | None => ret VNull
    | Some item =>
      t <- Date_now ;;
      let isExpired := t - CacheItem.timestamp item >? cacheTTL cfg in
      if isExpired then
        modify (with_cache (delete key)) ;;
        ret VNull
      else ret (CacheItem.data item)
    end
  end.

(** Lines 137-143: the initial values of the five state cells. *)
Definition initialState : M HookState :=
  cached <- getCachedData ;;
  ret {| data := js_or cached (initialData cfg);
         status := if manual cfg then Idle else Loading;
         error := VNull;
         retryCount := 0;
         isFetched := false |}.

(** Lines 146-159. *)
Definition setData (newData : value) : M unit :=
  setDataState newData ;;
  when (not_null newData) (
    setStatus Success ;;
    match cacheSlot with
    | Some key => when (truthy newData) (cacheWrite key newData)
    | None => ret tt
    end).

(** Lines 162-168. *)
Definition reset : M unit :=
  setDataState (initialData cfg) ;;
  setStatus Idle ;;
  setError VNull ;;
  setRetryCount 0 ;;
  setIsFetched false.

(** Lines 171-226.  [fuel] bounds the depth of the recursion; [Pending] is
    the answer when it runs out. *)
Fixpoint fetchWithRetry (fuel : nat) (attempt : nat) : M value :=
  match fuel with
  | O => pending
  | S fuel' =>
    try (
      cachedData <- getCachedData ;;
      if truthy cachedData then
        setData cachedData ;;
        setStatus Success ;;
        callback (onSuccess cfg) (OnSuccess cachedData) ;;
        ret cachedData
      else
        when (0 <? delay cfg) (setTimeout (delay cfg)) ;;
        result <- awaitRequest host ;;
        setData result ;;
        setStatus Success ;;
        setIsFetched true ;;
        callback (onSuccess cfg) (OnSuccess result) ;;
        match cacheSlot with
        | Some key => cacheWrite key result
        | None => ret tt
        end ;;
        setRetryCount 0 ;;
        ret result
    ) catch err => (
      setError err ;;
      setStatus Error ;;
      setIsFetched true ;;
      callback (onError cfg) (OnError err) ;;
      if autoRetry cfg && (Z.of_nat attempt <? maxRetries cfg) then
        let nextAttempt := (attempt + 1)%nat in
        setRetryCount nextAttempt ;;
        let nextDelay := retryDelay cfg attempt in
        setTimeout nextDelay ;;
        fetchWithRetry fuel' nextAttempt
      else throw err)
  end.

(** *** The straight-line pieces of [fetchWithRetry]

    The same statements as in the body above, cut where the function
    branches; [fetchWithRetry_unfold] puts them back together. *)

(** Lines 176-179: the cache answered. *)
Definition applyCached (cachedData : value) : M value :=
  setData cachedData ;;
  setStatus Success ;;
  callback (onSuccess cfg) (OnSuccess cachedData) ;;
  ret cachedData.

(** Lines 183-185. *)
Definition startDelay : M unit :=
  when (0 <? delay cfg) (setTimeout (delay cfg)).

(** Lines 188-202: the request resolved. *)
Definition applyResult (result : value) : M value :=
  setData result ;;
  setStatus Success ;;
  setIsFetched true ;;
  callback (onSuccess cfg) (OnSuccess result) ;;
  match cacheSlot with
  | Some key => cacheWrite key result
  | None => ret tt
  end ;;
  setRetryCount 0 ;;
  ret result.

(** Lines 204-207: the request was rejected. *)
Definition recordFailure (err : value) : M unit :=
  setError err ;;
  setStatus Error ;;
  setIsFetched true ;;
  callback (onError cfg) (OnError err).

(** Line 210. *)
Definition shouldRetry (attempt : nat) : bool :=
  autoRetry cfg && (Z.of_nat attempt <? maxRetries cfg).

(** Lines 211-217. *)
Definition scheduleRetry (attempt : nat) : M unit :=
  setRetryCount (attempt + 1) ;;
  setTimeout (retryDelay cfg attempt).

(** What [getCachedData] returns in [w], and the world it leaves. *)
Definition cachedValue (w : World) : value :=
  match cacheSlot with
  | Some key =>
    match cache w !! key with
    | Some item =>
      if now w - CacheItem.timestamp item >? cacheTTL cfg then VNull
      else CacheItem.data item
    | None => VNull
    end
  | None => VNull
  end.

Definition afterLookup (w : World) : World :=
  match cacheSlot with
  | Some key =>
    match cache w !! key with
    | Some item =>
      if now w - CacheItem.timestamp item >? cacheTTL cfg
      then with_cache (delete key) w
      else w
    | None => w
    end
  | None => w
  end.

(** The world in which the request of an attempt started in [w] has
    settled: lookup, start delay, request. *)
Definition requested (w : World) : World :=
  exec (awaitRequest host) (exec startDelay (afterLookup w)).

(** No lookup in this store can be a hit, whatever the time: the slot is
    unused, empty, or holds a falsy value. *)
Definition cold (c : gmap string CacheItem.t) : Prop :=
  match cacheSlot with
  | Some key =>
    match c !! key with
    | Some item => truthy (CacheItem.data item) = false
    | None => True
    end
  | None => True
  end.

(** Two worlds that differ in the store only, *)
Definition sameButCache (w1 w2 : World) : Prop :=
  hook w1 = hook w2 ∧ now w1 = now w2 ∧ calls w1 = calls w2 ∧
  log w1 = log w2 ∧ frames w1 = frames w2.

(** and there at most in that the slot of this instance holds a falsy
    value in the first and nothing in the second. *)
Definition falsyOrAbsent (c1 c2 : gmap string CacheItem.t) : Prop :=
  c1 = c2 ∨
  ∃ key item,
    cacheSlot = Some key ∧ c1 !! key = Some item ∧
    truthy (CacheItem.data item) = false ∧ c2 = delete key c1.

Definition missAlike (w1 w2 : World) : Prop :=
  sameButCache w1 w2 ∧ falsyOrAbsent (cache w1) (cache w2).

(** The recursion is at most [maxRetries] deep. *)
Definition retryBudget : nat := S (Z.to_nat (maxRetries cfg)).

(** Lines 229-232; exposed as [refetch]. *)
Definition fetch : M value :=
  setStatus Loading ;;
  fetchWithRetry retryBudget 0.

(** Lines 235-242, the effect that runs after the first render (and after
    a render in which [deps] changed): [fetch().catch(() => {})]. *)
Definition autoExecute : M unit :=
  if manual cfg then ret tt
  else try (fetch ;; ret tt) catch _err => ret tt.

(** The first render: the state cells take their initial values. *)
Definition firstRender : M unit :=
  st <- initialState ;;
  modify (with_hook (fun _ => st)).

(** Mounting the hook: the first render, then its effects. *)
Definition mount : M unit :=
  firstRender ;;
  autoExecute.

End Hook.

(** [w] at a later reading of the clock. *)
Definition at_time (t : Z) (w : World) : World :=
  {| hook := hook w; cache := cache w; now := t;
     calls := calls w; log := log w; frames := frames w |}.

(** ** Concrete hosts, options and worlds *)

Definition freshHook : HookState :=
  {| data := VNull; status := Idle; error := VNull;
     retryCount := 0; isFetched := false |}.

Definition emptyWorld : World :=
  {| hook := freshHook; cache := ∅; now := 0; calls := 0;
     log := []; frames := [] |}.

(** The n-th invocation is rejected with the number n. *)
Definition failsWithItsIndex : Host.t :=
  {| Host.requestFn := fun n => Reject (VNum (Z.of_nat n));
     Host.latency := fun _ => 5 |}.

(** Every invocation is rejected with the same error. *)
Definition failsWith (e : value) : Host.t :=
  {| Host.requestFn := fun _ => Reject e; Host.latency := fun _ => 5 |}.

(** Every invocation resolves with the same value. *)
Definition resolvesWith (v : value) : Host.t :=
  {| Host.requestFn := fun _ => Resolve v; Host.latency := fun _ => 5 |}.

(** The first [k] invocations are rejected, the later ones resolve. *)
Definition failsThenResolves (k : nat) (e v : value) : Host.t :=
  {| Host.requestFn := fun n => if (n <? k)%nat then Reject e else Resolve v;
     Host.latency := fun _ => 5 |}.

(** [{ manual: true, autoRetry: true, maxRetries: 2 }] *)
Definition retryTwice : Config :=
  destructure
    {| opt_manual := Some true; opt_deps := None; opt_initialData := None;
       opt_onSuccess := false; opt_onError := false; opt_delay := None;
       opt_cache := None; opt_cacheKey := None; opt_cacheTTL := None;
       opt_autoRetry := Some true; opt_maxRetries := Some 2;
       opt_retryDelay := None |}.

(** A hook with [retryTwice] whose first [refetch()] used up its retries:
    invocations 0, 1 and 2 of the operation failed. *)
Definition afterThreeFailures : World :=
  exec (fetch retryTwice (failsThenResolves 4 (VStr "boom") (VNum 7)))
    emptyWorld.

(** [{ manual: true, cache: true, cacheKey: "u1", cacheTTL: 1000 }] *)
Definition cachedU1 : Config :=
  destructure
    {| opt_manual := Some true; opt_deps := None; opt_initialData := None;
       opt_onSuccess := false; opt_onError := false; opt_delay := None;
       opt_cache := Some true; opt_cacheKey := Some "u1"%string;
       opt_cacheTTL := Some 1000;
       opt_autoRetry := None; opt_maxRetries := None;
       opt_retryDelay := None |}.

(** [cachedU1] with [autoRetry: true, maxRetries: 2, initialData: 42]. *)
Definition cachedRetryU1 : Config :=
  destructure
    {| opt_manual := Some true; opt_deps := None;
       opt_initialData := Some (VNum 42);
       opt_onSuccess := true; opt_onError := true; opt_delay := Some 10;
       opt_cache := Some true; opt_cacheKey := Some "u1"%string;
       opt_cacheTTL := Some 1000;
       opt_autoRetry := Some true; opt_maxRetries := Some 2;
       opt_retryDelay := None |}.

(** Another instance has stored [5] under ["u1"] at time 0; this hook is
    fresh. *)
Definition warmWorld : World :=
  exec (cacheWrite "u1" (VNum 5)) emptyWorld.

(** A hook with [cachedRetryU1] whose [refetch()] used up its retries, and
    whose host then called [setData(5)]. *)
Definition failedThenSet : World :=
  exec (setData cachedRetryU1 (VNum 5))
    (exec (fetch cachedRetryU1 (failsWith (VStr "boom"))) emptyWorld).

(** The operation resolved with [0] and the result was stored under
    ["u1"]. *)
Definition zeroCached : World :=
  exec (fetch cachedU1 (resolvesWith (VNum 0))) emptyWorld.

(** ** What the component sees *)

(** Line 245: [const loading = status === "loading"]. *)
Definition loading (h : HookState) : bool := bool_decide (status h = Loading).

Module Result.
Record t : Type := {
  data : value;
  loading : bool;
  status : RequestStatus;
  error : value;
  isFetched : bool
}.
End Result.

(** Lines 247-256, the object the hook returns, without its three
    functions ([refetch] is [fetch], [setData], [reset]). *)
Definition returned (h : HookState) : Result.t :=
  {| Result.data := data h;
     Result.loading := loading h;
     Result.status := status h;
     Result.error := error h;
     Result.isFetched := isFetched h |}.

(** The arguments of the calls of [onSuccess] and of [onError] in a log,
    latest first. *)
Definition onSuccessCalls (l : list event) : list value :=
  omap (λ e, match e with OnSuccess d => Some d | _ => None end) l.

Definition onErrorCalls (l : list event) : list value :=
  omap (λ e, match e with OnError e => Some e | _ => None end) l.

(** The timers in a log, latest first. *)
Definition sleeps (l : list event) : list Z :=
  omap (λ e, match e with Sleep ms => Some ms | _ => None end) l.

(** The timers of a run of [fetchWithRetry] in which attempts [0] to [m]
    all take place, latest first: before each request the start delay (when
    [delay > 0]), and between attempt [k] and attempt [k + 1] the back-off
    [retryDelay(k)]. *)
Definition startTimer (cfg : Config) : list Z :=
  if 0 <? delay cfg then [delay cfg] else [].

Fixpoint timers (cfg : Config) (m : nat) : list Z :=
  match m with
  | O => startTimer cfg
  | S k => startTimer cfg ++ retryDelay cfg k :: timers cfg k
  end.

(** The timers set before attempt [a] starts. *)
Definition timersBefore (cfg : Config) (a : nat) : list Z :=
  match a with
  | O => []
  | S k => retryDelay cfg k :: timers cfg k
  end.

(** Another hook instance looking at the same store at the same time: the
    five cells are its own. *)
Definition seenBy (h : HookState) (w : World) : World :=
  with_hook (λ _, h) w.

(** [{ manual: true, cache: true, cacheKey: "" }] *)
Definition cachedEmptyKey : Config :=
  destructure
    {| opt_manual := Some true; opt_deps := None; opt_initialData := None;
       opt_onSuccess := false; opt_onError := false; opt_delay := None;
       opt_cache := Some true; opt_cacheKey := Some ""%string;
       opt_cacheTTL := None;
       opt_autoRetry := None; opt_maxRetries := None;
       opt_retryDelay := None |}.

(** [{ cache: true, cacheKey: "u1", cacheTTL: 1000 }], not manual. *)
Definition autoCachedU1 : Config :=
  destructure
    {| opt_manual := None; opt_deps := None; opt_initialData := None;
       opt_onSuccess := false; opt_onError := false; opt_delay := None;
       opt_cache := Some true; opt_cacheKey := Some "u1"%string;
       opt_cacheTTL := Some 1000;
       opt_autoRetry := None; opt_maxRetries := None;
       opt_retryDelay := None |}.

(** ** Property names that are not ordinary map keys

    The own property names of [Object.prototype] in a standard runtime, of
    which ["__proto__"] is an accessor whose setter replaces the prototype,
    and the two field names of a [CacheItem], which are inherited once an
    item has been made the prototype of [cache]. *)
Definition specialKeys : list string :=
  ["__proto__"; "constructor"; "hasOwnProperty"; "isPrototypeOf";
   "propertyIsEnumerable"; "toLocaleString"; "toString"; "valueOf";
   "__defineGetter__"; "__defineSetter__"; "__lookupGetter__";
   "__lookupSetter__"; "data"; "timestamp"]%string.

(** For an ordinary key, [cache[key]] is the own entry or [undefined]. *)
Definition ordinaryKey (key : string) : bool :=
  bool_decide (key ∉ specialKeys).

(** The frames one attempt adds before its request settles: one for the
    awaited request, and one more for the start delay when [delay > 0]. *)
Definition suspensionsPerAttempt (cfg : Config) : nat :=
  if 0 <? delay cfg then 2 else 1.

(** The operation resolved with [null] and the result was stored under
    ["u1"] (line 195). *)
Definition nullCached : World :=
  exec (fetch cachedU1 (resolvesWith VNull)) emptyWorld.

(** [{ manual: true, cache: true, cacheKey: "u2", cacheTTL: 1000 }] *)
Definition cachedU2 : Config :=
  destructure
    {| opt_manual := Some true; opt_deps := None; opt_initialData := None;
       opt_onSuccess := false; opt_onError := false; opt_delay := None;
       opt_cache := Some true; opt_cacheKey := Some "u2"%string;
       opt_cacheTTL := Some 1000;
       opt_autoRetry := None; opt_maxRetries := None;
       opt_retryDelay := None |}.

(** * Properties *)

(** ** The cache *)

Lemma getCachedData_eq (cfg : Config) (w : World) :
  getCachedData cfg w = (Normal (cachedValue cfg w), afterLookup cfg w).
Proof.
  unfold getCachedData, cachedValue, afterLookup.
  destruct (cacheSlot cfg) as [key|]; [|done].
  unfold bind, gets, Date_now; cbn.
  destruct (cache w !! key) as [item|]; [|done].
  cbn. by destruct (_ >? _).
Qed.

Lemma cacheSlot_truthy (cfg : Config) (key : string) :
  cacheSlot cfg = Some key → key ≠ ""%string.
Proof.
  unfold cacheSlot. destruct (shouldCache cfg); [|done].
  destruct (cacheKey cfg) as [k|]; [|done].
  destruct k; cbn; [done|]. by intros [= <-].
Qed.

Lemma cachedValue_stored (cfg : Config) (key : string) (item : CacheItem.t)
    (w : World) :
  cacheSlot cfg = Some key →
  cache w !! key = Some item →
  cachedValue cfg w =
    (if now w - CacheItem.timestamp item >? cacheTTL cfg then VNull
     else CacheItem.data item) ∧
  afterLookup cfg w =
    (if now w - CacheItem.timestamp item >? cacheTTL cfg
     then with_cache (delete key) w else w).
Proof.
  intros Hk Hi. unfold cachedValue, afterLookup. by rewrite Hk, Hi.
Qed.

(** C2, as the code has it.  Let this instance cache under the key [key],
    not ["__proto__"].  After [cache[key] = { data: v, timestamp: t0 }] was
    stored at time [t0], a [getCachedData()] at time [t] returns [v] and
    leaves the store alone when [t - t0 <= cacheTTL]; when
    [t - t0 > cacheTTL] it returns [null] and the entry is gone from the
    store.  For a stored [v] other than [null], it returns [v] exactly when
    [t - t0 <= cacheTTL]. *)
Theorem getCachedData_after_set (cfg : Config) (key : string) (v : value)
    (t : Z) (w : World) :
  cacheSlot cfg = Some key →
  key ≠ "__proto__"%string →
  let t0 := now w in
  let stored := at_time t (exec (cacheWrite key v) w) in
  (t - t0 ≤ cacheTTL cfg →
     getCachedData cfg stored = (Normal v, stored)) ∧
  (t - t0 > cacheTTL cfg →
     outcome (getCachedData cfg) stored = Normal VNull ∧
     cache (exec (getCachedData cfg) stored) !! key = None ∧
     cache (exec (getCachedData cfg) stored) = delete key (cache w)) ∧
  (v ≠ VNull →
     outcome (getCachedData cfg) stored = Normal v ↔ t - t0 ≤ cacheTTL cfg).
Proof.
  intros Hk _ t0 stored.
  assert (Hi : cache stored !! key =
               Some {| CacheItem.data := v; CacheItem.timestamp := t0 |})
    by apply lookup_insert_eq.
  destruct (cachedValue_stored cfg key _ stored Hk Hi) as [Hv Hw].
  unfold outcome, exec. rewrite getCachedData_eq, Hv, Hw. cbn.
  destruct (Z.gtb_spec (t - t0) (cacheTTL cfg)) as [Hgt|Hle].
  - split; [lia|]. split.
    + intros _. split; [done|]. split.
      * apply lookup_delete_eq.
      * apply delete_insert_eq.
    + intros Hnull. split; [|lia]. intros [= <-]. done.
  - split; [done|]. split; [lia|]. done.
Qed.

Lemma getCachedData_after_set_witness :
  cacheSlot cachedU1 = Some "u1"%string ∧
  getCachedData cachedU1
    (at_time 1000 (exec (cacheWrite "u1" (VNum 7)) emptyWorld)) =
  (Normal (VNum 7), at_time 1000 (exec (cacheWrite "u1" (VNum 7)) emptyWorld)) ∧
  outcome (getCachedData cachedU1)
    (at_time 1001 (exec (cacheWrite "u1" (VNum 7)) emptyWorld)) = Normal VNull.
Proof.
  assert (Hk : cacheSlot cachedU1 = Some "u1"%string) by reflexivity.
  assert (Hordinary : "u1"%string ≠ "__proto__"%string) by discriminate.
  split; [exact Hk|].
  split.
  - apply (getCachedData_after_set cachedU1 "u1" (VNum 7) 1000 emptyWorld
             Hk Hordinary).
    vm_compute. discriminate.
  - apply (getCachedData_after_set cachedU1 "u1" (VNum 7) 1001 emptyWorld
             Hk Hordinary).
    reflexivity.
Defined.

(** C2, counterexample.  With [cache: true, cacheKey: "u1", cacheTTL: 1000],
    the operation resolved with [null] and line 195 stored it at time 5.  A
    [getCachedData()] at time 2000 returns [null], which is the stored
    value, although [2000 - 5 > 1000]: "returns [v] if and only if
    [now - t0 <= ttl]" fails for [v = null]. *)
Lemma stored_null_is_returned_when_expired :
  cacheSlot cachedU1 = Some "u1"%string ∧
  cache nullCached !! "u1"%string =
    Some {| CacheItem.data := VNull; CacheItem.timestamp := 5 |} ∧
  outcome (getCachedData cachedU1) (at_time 2000 nullCached) = Normal VNull ∧
  ¬ (2000 - 5 ≤ cacheTTL cachedU1).
Proof.
  split; [reflexivity|]. split; [reflexivity|]. split; [reflexivity|].
  vm_compute. by intros H.
Qed.

(** ** [setData] and [reset] *)

Lemma setData_eq (cfg : Config) (v : value) (w : World) :
  setData cfg v w =
    (Normal tt,
     {| hook :=
          {| data := v;
             status := if not_null v then Success else status (hook w);
             error := error (hook w);
             retryCount := retryCount (hook w);
             isFetched := isFetched (hook w) |};
        cache :=
          match cacheSlot cfg with
          | Some key =>
            if truthy v
            then <[key := {| CacheItem.data := v; CacheItem.timestamp := now w |}]>
                   (cache w)
            else cache w
          | None => cache w
          end;
        now := now w; calls := calls w; log := log w; frames := frames w |}).
Proof.
  unfold setData, when.
  destruct v as [| |b|n|s|r]; cbn; try reflexivity;
    destruct (cacheSlot cfg); try reflexivity.
  - by destruct b.
  - by destruct (n =? 0).
  - by destruct (String.eqb s "").
Qed.

(** C3, as the code has it.  [setData(value)], in any state, overwrites
    [data] with [value]; when [value] is not [null] it sets [status] to
    success; it writes [value] through to the cache only when this instance
    caches under a non-empty key and [value] is truthy; it leaves [error],
    [retryCount] and [isFetched] as they were. *)
Theorem setData_effect (cfg : Config) (v : value) (w : World) :
  let w' := exec (setData cfg v) w in
  outcome (setData cfg v) w = Normal tt ∧
  data (hook w') = v ∧
  status (hook w') = (if not_null v then Success else status (hook w)) ∧
  error (hook w') = error (hook w) ∧
  retryCount (hook w') = retryCount (hook w) ∧
  isFetched (hook w') = isFetched (hook w) ∧
  cache w' =
    match cacheSlot cfg with
    | Some key =>
      if truthy v
      then <[key := {| CacheItem.data := v; CacheItem.timestamp := now w |}]>
             (cache w)
      else cache w
    | None => cache w
    end.
Proof. unfold outcome, exec. rewrite setData_eq. cbn. by repeat split. Qed.

(** C3, counterexample.  With [cache: true, cacheKey: "u1"], [setData(0)] on
    a fresh hook sets [status] to success, and the store still has no entry
    under ["u1"]: the non-null value [0] was not written through. *)
Lemma setData_zero_not_written_through :
  shouldCache cachedU1 = true ∧
  cacheKey cachedU1 = Some "u1"%string ∧
  not_null (VNum 0) = true ∧
  status (hook (exec (setData cachedU1 (VNum 0)) emptyWorld)) = Success ∧
  cache (exec (setData cachedU1 (VNum 0)) emptyWorld) !! "u1"%string = None ∧
  cache (exec (setData cachedU1 (VNum 1)) emptyWorld) !! "u1"%string =
    Some {| CacheItem.data := VNum 1; CacheItem.timestamp := 0 |}.
Proof. vm_compute. by repeat split. Qed.

(** C5.  [reset()], in any state, sets [data] to [initialData], [status] to
    idle, [error] to [null], [retryCount] to 0 and [isFetched] to false, and
    touches nothing else; a second [reset()] changes nothing. *)
Theorem reset_restores_and_is_idempotent (cfg : Config) (w : World) :
  outcome (reset cfg) w = Normal tt ∧
  hook (exec (reset cfg) w) =
    {| data := initialData cfg; status := Idle; error := VNull;
       retryCount := 0; isFetched := false |} ∧
  cache (exec (reset cfg) w) = cache w ∧
  exec (reset cfg) (exec (reset cfg) w) = exec (reset cfg) w.
Proof. by repeat split. Qed.

(** ** The default back-off *)

(** C8.  When the host gives no [retryDelay], the delay before the retry
    that follows attempt [a] is [min(1000 * 2^a, 30000)] milliseconds: 1000
    for 0, 16000 for 4, 30000 for 10; it is [1000 * 2^a] up to attempt 4 and
    30000 from attempt 5 on. *)
Theorem default_retryDelay (options : UseApiRequestOptions) :
  opt_retryDelay options = None →
  let delayFor := retryDelay (destructure options) in
  (∀ a : nat, delayFor a = Z.min (1000 * 2 ^ Z.of_nat a) 30000) ∧
  delayFor 0%nat = 1000 ∧
  delayFor 4%nat = 16000 ∧
  delayFor 10%nat = 30000 ∧
  (∀ a : nat, (a ≤ 4)%nat → delayFor a = 1000 * 2 ^ Z.of_nat a) ∧
  (∀ a : nat, (5 ≤ a)%nat → delayFor a = 30000).
Proof.
  intros Hnone delayFor. subst delayFor. cbn. rewrite Hnone. cbn.
  split; [done|]. split; [done|]. split; [done|]. split; [done|]. split.
  - intros a Ha. unfold defaultRetryDelay.
    destruct a as [|[|[|[|[|a]]]]]; [reflexivity .. | lia].
  - intros a Ha. unfold defaultRetryDelay.
    assert (2 ^ 5 ≤ 2 ^ Z.of_nat a) by (apply Z.pow_le_mono_r; lia).
    change (2 ^ 5) with 32 in *. lia.
Qed.

Lemma default_retryDelay_witness :
  retryDelay (destructure noOptions) 0%nat = 1000 ∧
  retryDelay (destructure noOptions) 4%nat = 16000 ∧
  retryDelay (destructure noOptions) 10%nat = 30000.
Proof.
  pose proof (default_retryDelay noOptions eq_refl) as (_ & H0 & H4 & H10 & _).
  exact (conj H0 (conj H4 H10)).
Defined.

(** ** One attempt of [fetchWithRetry] *)

Section Attempt.

Variable cfg : Config.
Variable host : Host.t.

Lemma startDelay_eq (w : World) :
  startDelay cfg w =
    (Normal tt,
     if 0 <? delay cfg
     then suspend (Z.max 0 (delay cfg)) (emit (Sleep (delay cfg)) w)
     else w).
Proof. unfold startDelay, when. by destruct (0 <? delay cfg). Qed.

Lemma awaitRequest_eq (w : World) :
  awaitRequest host w =
    (match Host.requestFn host (calls w) with
     | Resolve v => Normal v
     | Reject e => Thrown e
     end,
     {| hook := hook w; cache := cache w;
        now := now w + Host.latency host (calls w);
        calls := S (calls w); log := Request (calls w) :: log w;
        frames := hook w :: frames w |}).
Proof. unfold awaitRequest. by destruct (Host.requestFn host (calls w)). Qed.

Lemma applyCached_eq (c : value) (w : World) :
  applyCached cfg c w =
    (Normal c,
     {| hook :=
          {| data := c; status := Success; error := error (hook w);
             retryCount := retryCount (hook w);
             isFetched := isFetched (hook w) |};
        cache := cache (exec (setData cfg c) w);
        now := now w; calls := calls w;
        log := if onSuccess cfg then OnSuccess c :: log w else log w;
        frames := frames w |}).
Proof.
  unfold applyCached, exec. unfold bind at 1. rewrite setData_eq.
  unfold callback, when. by destruct (onSuccess cfg).
Qed.

Lemma applyResult_eq (v : value) (w : World) :
  applyResult cfg v w =
    (Normal v,
     {| hook :=
          {| data := v; status := Success; error := error (hook w);
             retryCount := 0; isFetched := true |};
        cache :=
          match cacheSlot cfg with
          | Some key =>
            <[key := {| CacheItem.data := v; CacheItem.timestamp := now w |}]>
              (cache w)
          | None => cache w
          end;
        now := now w; calls := calls w;
        log := if onSuccess cfg then OnSuccess v :: log w else log w;
        frames := frames w |}).
Proof.
  unfold applyResult. unfold bind at 1. rewrite setData_eq.
  unfold callback, when, cacheWrite.
  destruct (onSuccess cfg), (cacheSlot cfg) as [key|]; cbn;
    try reflexivity; destruct (truthy v);
    unfold ret, with_hook, with_cache, emit; cbn;
    by rewrite ?insert_insert_eq.
Qed.

Lemma recordFailure_eq (e : value) (w : World) :
  recordFailure cfg e w =
    (Normal tt,
     {| hook :=
          {| data := data (hook w); status := Error; error := e;
             retryCount := retryCount (hook w); isFetched := true |};
        cache := cache w; now := now w; calls := calls w;
        log := if onError cfg then OnError e :: log w else log w;
        frames := frames w |}).
Proof. unfold recordFailure, callback, when. by destruct (onError cfg). Qed.

Lemma scheduleRetry_eq (attempt : nat) (w : World) :
  scheduleRetry cfg attempt w =
    (Normal tt,
     let h := {| data := data (hook w); status := status (hook w);
                 error := error (hook w);
                 retryCount := (attempt + 1)%nat;
                 isFetched := isFetched (hook w) |} in
     {| hook := h; cache := cache w;
        now := now w + Z.max 0 (retryDelay cfg attempt);
        calls := calls w;
        log := Sleep (retryDelay cfg attempt) :: log w;
        frames := h :: frames w |}).
Proof. reflexivity. Qed.

(** The lookup changes nothing but the store. *)
Lemma afterLookup_eq (w : World) :
  ∃ f, afterLookup cfg w = with_cache f w ∧
       (f = id ∨ ∃ key, cacheSlot cfg = Some key ∧ f = delete key).
Proof.
  unfold afterLookup. destruct (cacheSlot cfg) as [key|].
  - destruct (cache w !! key) as [item|].
    + destruct (_ >? _).
      * exists (delete key). eauto.
      * exists id. split; [by destruct w | by left].
    + exists id. split; [by destruct w | by left].
  - exists id. split; [by destruct w | by left].
Qed.

Lemma requested_eq (w : World) :
  requested cfg host w =
    let d := 0 <? delay cfg in
    {| hook := hook w;
       cache := cache (afterLookup cfg w);
       now := (if d then now w + Z.max 0 (delay cfg) else now w)
              + Host.latency host (calls w);
       calls := S (calls w);
       log := Request (calls w)
              :: (if d then Sleep (delay cfg) :: log w else log w);
       frames := hook w :: (if d then hook w :: frames w else frames w) |}.
Proof.
  unfold requested, exec. rewrite startDelay_eq, awaitRequest_eq.
  destruct (afterLookup_eq w) as (f & -> & _).
  by destruct (0 <? delay cfg).
Qed.

(** [fetchWithRetry], one level unfolded, in terms of its pieces. *)
Lemma fetchWithRetry_unfold (fuel attempt : nat) (w : World) :
  fetchWithRetry cfg host (S fuel) attempt w =
    if truthy (cachedValue cfg w) then
      applyCached cfg (cachedValue cfg w) (afterLookup cfg w)
    else
      match Host.requestFn host (calls w) with
      | Resolve result => applyResult cfg result (requested cfg host w)
      | Reject err =>
        let failed := exec (recordFailure cfg err) (requested cfg host w) in
        if shouldRetry cfg attempt then
          fetchWithRetry cfg host fuel (attempt + 1)
            (exec (scheduleRetry cfg attempt) failed)
        else (Thrown err, failed)
      end.
Proof.
  cbn [fetchWithRetry]. unfold try_catch.
  unfold bind at 1. rewrite getCachedData_eq.
  destruct (truthy (cachedValue cfg w)) eqn:Hc.
  - fold (applyCached cfg (cachedValue cfg w)). by rewrite applyCached_eq.
  - fold (startDelay cfg). unfold bind at 1.
    pose proof (startDelay_eq (afterLookup cfg w)) as Hd.
    rewrite (surjective_pairing (startDelay cfg (afterLookup cfg w))) in Hd.
    injection Hd as Hd1 Hd2. 
    rewrite (surjective_pairing (startDelay cfg (afterLookup cfg w))), Hd1.
    fold (exec (startDelay cfg) (afterLookup cfg w)).
    unfold bind at 1.
    rewrite (surjective_pairing (awaitRequest host _)).
    fold (exec (awaitRequest host) (exec (startDelay cfg) (afterLookup cfg w))).
    fold (requested cfg host w).
    rewrite awaitRequest_eq. cbn [fst].
    assert (Hcalls : calls (exec (startDelay cfg) (afterLookup cfg w)) = calls w).
    { unfold exec. rewrite startDelay_eq. destruct (afterLookup_eq w) as (f & -> & _).
      by destruct (0 <? delay cfg). }
    rewrite Hcalls.
    destruct (Host.requestFn host (calls w)) as [v|e].
    + fold (applyResult cfg v). by rewrite applyResult_eq.
    + cbv zeta. fold (shouldRetry cfg attempt).
      unfold recordFailure, scheduleRetry, exec, callback, when, throw.
      by destruct (onError cfg), (shouldRetry cfg attempt).
Qed.

(** The world after a rejected request, and the one in which the retry
    starts. *)
Lemma failed_fields (e : value) (w : World) :
  let wf := exec (recordFailure cfg e) (requested cfg host w) in
  hook wf =
    {| data := data (hook w); status := Error; error := e;
       retryCount := retryCount (hook w); isFetched := true |} ∧
  cache wf = cache (afterLookup cfg w) ∧
  calls wf = S (calls w) ∧
  frames wf = frames (requested cfg host w) ∧
  now wf = now (requested cfg host w).
Proof.
  cbv zeta. unfold exec. rewrite recordFailure_eq, requested_eq.
  by repeat split.
Qed.

Lemma retry_fields (attempt : nat) (e : value) (w : World) :
  let w1 := exec (scheduleRetry cfg attempt)
              (exec (recordFailure cfg e) (requested cfg host w)) in
  hook w1 =
    {| data := data (hook w); status := Error; error := e;
       retryCount := (attempt + 1)%nat; isFetched := true |} ∧
  cache w1 = cache (afterLookup cfg w) ∧
  calls w1 = S (calls w) ∧
  frames w1 = hook w1 :: frames (requested cfg host w) ∧
  now w1 = now (requested cfg host w) + Z.max 0 (retryDelay cfg attempt).
Proof.
  cbv zeta. unfold exec. rewrite scheduleRetry_eq, recordFailure_eq.
  rewrite requested_eq. by repeat split.
Qed.

Lemma requested_fields (w : World) :
  hook (requested cfg host w) = hook w ∧
  cache (requested cfg host w) = cache (afterLookup cfg w) ∧
  calls (requested cfg host w) = S (calls w) ∧
  ∃ waiting : list HookState,
    frames (requested cfg host w) = waiting ++ frames w ∧
    Forall (λ h, h = hook w) waiting.
Proof.
  rewrite requested_eq. cbv zeta. cbn. split; [done|]. split; [done|].
  split; [done|].
  destruct (0 <? delay cfg).
  - exists [hook w; hook w]. by repeat constructor.
  - exists [hook w]. by repeat constructor.
Qed.

End Attempt.

(** ** [fetchWithRetry] settles *)

Lemma fetch_eq (cfg : Config) (host : Host.t) (w : World) :
  fetch cfg host w =
    fetchWithRetry cfg host (retryBudget cfg) 0 (exec (setStatus Loading) w).
Proof. reflexivity. Qed.

Lemma shouldRetry_true (cfg : Config) (attempt : nat) :
  shouldRetry cfg attempt = true →
  autoRetry cfg = true ∧ Z.of_nat attempt < maxRetries cfg.
Proof.
  unfold shouldRetry. intros [Ha Hlt]%andb_prop. split; [done | lia].
Qed.

(** With more fuel than retries left, the promise settles. *)
Lemma fetchWithRetry_settles (cfg : Config) (host : Host.t) (fuel : nat) :
  ∀ (attempt : nat) (w : World),
    (Z.to_nat (maxRetries cfg - Z.of_nat attempt) < fuel)%nat →
    outcome (fetchWithRetry cfg host fuel attempt) w ≠ Pending.
Proof.
  unfold outcome.
  induction fuel as [|fuel IH]; intros attempt w Hfuel; [lia|].
  rewrite fetchWithRetry_unfold.
  destruct (truthy (cachedValue cfg w)).
  - by rewrite applyCached_eq.
  - destruct (Host.requestFn host (calls w)) as [v|e].
    + by rewrite applyResult_eq.
    + cbv zeta. destruct (shouldRetry cfg attempt) eqn:Hretry; [|done].
      apply shouldRetry_true in Hretry as [_ Hlt].
      apply IH. lia.
Qed.

(** Fuel beyond that changes nothing. *)
Lemma fetchWithRetry_more_fuel (cfg : Config) (host : Host.t) (fuel : nat) :
  ∀ (attempt : nat) (w : World) (fuel' : nat),
    (Z.to_nat (maxRetries cfg - Z.of_nat attempt) < fuel)%nat →
    (fuel ≤ fuel')%nat →
    fetchWithRetry cfg host fuel' attempt w =
      fetchWithRetry cfg host fuel attempt w.
Proof.
  induction fuel as [|fuel IH]; intros attempt w fuel' Hfuel Hle; [lia|].
  destruct fuel' as [|fuel']; [lia|].
  rewrite !fetchWithRetry_unfold.
  destruct (truthy (cachedValue cfg w)); [done|].
  destruct (Host.requestFn host (calls w)) as [v|e]; [done|].
  cbv zeta. destruct (shouldRetry cfg attempt) eqn:Hretry; [|done].
  apply shouldRetry_true in Hretry as [_ Hlt].
  apply IH; lia.
Qed.

Lemma fetch_settles (cfg : Config) (host : Host.t) (w : World) :
  outcome (fetch cfg host) w ≠ Pending.
Proof.
  unfold outcome. rewrite fetch_eq.
  apply fetchWithRetry_settles. unfold retryBudget. lia.
Qed.

(** ** A store that cannot answer *)

Lemma miss_cold (cfg : Config) (w : World) :
  truthy (cachedValue cfg w) = false → cold cfg (cache (afterLookup cfg w)).
Proof.
  unfold cachedValue, afterLookup, cold.
  destruct (cacheSlot cfg) as [key|]; [|done].
  destruct (cache w !! key) as [item|] eqn:Hi.
  - destruct (_ >? _); cbn.
    + by rewrite lookup_delete_eq.
    + by rewrite Hi.
  - by rewrite Hi.
Qed.

Lemma cold_miss (cfg : Config) (w : World) :
  cold cfg (cache w) → truthy (cachedValue cfg w) = false.
Proof.
  unfold cachedValue, cold.
  destruct (cacheSlot cfg) as [key|]; [|done].
  destruct (cache w !! key) as [item|]; [|done].
  by destruct (_ >? _).
Qed.

Lemma cold_requested (cfg : Config) (host : Host.t) (w : World) :
  cold cfg (cache w) → cold cfg (cache (requested cfg host w)).
Proof.
  intros Hcold. rewrite requested_eq. cbn.
  by apply miss_cold, cold_miss.
Qed.

(** ** Retries of an operation that always fails *)

Section AlwaysFails.

Variable cfg : Config.
Variable host : Host.t.
Variable err : nat → value.

Hypothesis auto : autoRetry cfg = true.
Hypothesis fails : ∀ n, Host.requestFn host n = Reject (err n).

(** From attempt number [attempt] on, every remaining attempt invokes the
    operation once, and the promise is rejected with the error of the
    last one. *)
Lemma failing_run (fuel : nat) :
  ∀ (attempt : nat) (w : World),
    cold cfg (cache w) →
    Z.of_nat attempt ≤ maxRetries cfg →
    (Z.to_nat (maxRetries cfg - Z.of_nat attempt) < fuel)%nat →
    let last := (calls w + Z.to_nat (maxRetries cfg - Z.of_nat attempt))%nat in
    let r := fetchWithRetry cfg host fuel attempt w in
    fst r = Thrown (err last) ∧
    calls (snd r) = S last ∧
    status (hook (snd r)) = Error ∧
    error (hook (snd r)) = err last.
Proof.
  induction fuel as [|fuel IH]; intros attempt w Hcold Hle Hfuel; [lia|].
  cbv zeta. rewrite fetchWithRetry_unfold, (cold_miss _ _ Hcold), fails.
  cbv zeta. unfold shouldRetry. rewrite auto. cbn [andb].
  destruct (Z.ltb_spec (Z.of_nat attempt) (maxRetries cfg)) as [Hlt|Hge].
  - set (w' := exec (scheduleRetry cfg attempt) _).
    assert (Hcalls : calls w' = S (calls w)).
    { subst w'. unfold exec. rewrite scheduleRetry_eq, recordFailure_eq.
      by rewrite requested_eq. }
    assert (Hcold' : cold cfg (cache w')).
    { subst w'. unfold exec. rewrite scheduleRetry_eq, recordFailure_eq.
      cbn. by apply cold_requested. }
    specialize (IH (attempt + 1)%nat w' Hcold' ltac:(lia) ltac:(lia)).
    cbv zeta in IH. rewrite Hcalls in IH.
    replace (S (calls w) + Z.to_nat (maxRetries cfg - Z.of_nat (attempt + 1)))%nat
      with (calls w + Z.to_nat (maxRetries cfg - Z.of_nat attempt))%nat in IH
      by lia.
    exact IH.
  - replace (Z.to_nat (maxRetries cfg - Z.of_nat attempt)) with 0%nat by lia.
    rewrite Nat.add_0_r. unfold exec. rewrite recordFailure_eq.
    cbn. by rewrite requested_eq.
Qed.

End AlwaysFails.

(** C1, as the code has it.  With [autoRetry: true, maxRetries: 2], an
    operation that fails every time, started where the cache does not
    answer, is invoked exactly 3 times by one [refetch()]; the promise is
    rejected with the error of the third invocation, as the operation threw
    it, and the hook is left in the error state with that error.  Where the
    operation fails with one and the same error each time, that error is
    the rejection. *)
Theorem retry_twice_always_failing (cfg : Config) (host : Host.t)
    (err : nat → value) (w : World) :
  autoRetry cfg = true →
  maxRetries cfg = 2 →
  (∀ n, Host.requestFn host n = Reject (err n)) →
  truthy (cachedValue cfg w) = false →
  let w' := exec (fetch cfg host) w in
  calls w' = (calls w + 3)%nat ∧
  outcome (fetch cfg host) w = Thrown (err (calls w + 2)%nat) ∧
  status (hook w') = Error ∧
  error (hook w') = err (calls w + 2)%nat ∧
  (∀ e, (∀ n, err n = e) → outcome (fetch cfg host) w = Thrown e).
Proof.
  intros Hauto Hmax Hfails Hmiss.
  assert (Hrun :
    let r := fetch cfg host w in
    fst r = Thrown (err (calls w + 2)%nat) ∧
    calls (snd r) = S (calls w + 2) ∧
    status (hook (snd r)) = Error ∧
    error (hook (snd r)) = err (calls w + 2)%nat).
  { cbv zeta. rewrite fetch_eq. unfold retryBudget.
    rewrite fetchWithRetry_unfold.
    change (cachedValue cfg (exec (setStatus Loading) w))
      with (cachedValue cfg w).
    rewrite Hmiss. change (calls (exec (setStatus Loading) w)) with (calls w).
    rewrite Hfails. cbv zeta.
    unfold shouldRetry. rewrite Hauto, Hmax. cbn [andb Z.of_nat Z.ltb Z.compare].
    set (w1 := exec (scheduleRetry cfg 0) _).
    assert (Hcalls : calls w1 = S (calls w)).
    { subst w1. unfold exec. rewrite scheduleRetry_eq, recordFailure_eq.
      by rewrite requested_eq. }
    assert (Hcold : cold cfg (cache w1)).
    { subst w1. unfold exec. rewrite scheduleRetry_eq, recordFailure_eq.
      rewrite requested_eq. cbn. by apply miss_cold. }
    pose proof (failing_run cfg host err Hauto Hfails (Z.to_nat 2) 1 w1 Hcold
                  ltac:(lia) ltac:(rewrite Hmax; cbn; lia)) as Hrun.
    cbv zeta in Hrun. rewrite Hcalls, Hmax in Hrun.
    change (Z.to_nat (2 - Z.of_nat 1)) with 1%nat in Hrun.
    replace (S (calls w) + 1)%nat with (calls w + 2)%nat in Hrun by lia.
    exact Hrun. }
  cbv zeta in Hrun. destruct Hrun as (Hout & Hcalls & Hstatus & Herror).
  unfold outcome, exec. cbv zeta.
  split; [rewrite Hcalls; lia|]. split; [done|]. split; [done|]. split; [done|].
  intros e Hsame. by rewrite Hout, Hsame.
Qed.

Lemma retry_twice_always_failing_witness :
  calls (exec (fetch retryTwice failsWithItsIndex) emptyWorld) = 3%nat ∧
  outcome (fetch retryTwice failsWithItsIndex) emptyWorld = Thrown (VNum 2).
Proof.
  pose proof (retry_twice_always_failing retryTwice failsWithItsIndex
                (λ n, VNum (Z.of_nat n)) emptyWorld
                eq_refl eq_refl (λ n, eq_refl) eq_refl)
    as (Hcalls & Hout & _).
  exact (conj Hcalls Hout).
Defined.

(** C1, counterexample.  With [autoRetry: true, maxRetries: 2] and an
    operation whose n-th invocation is rejected with the number n, one
    [refetch()] invokes it 3 times; the first attempt failed with [0], and
    the promise is rejected with [2], the error of the last attempt. *)
Lemma rejection_is_not_the_first_error :
  autoRetry retryTwice = true ∧
  maxRetries retryTwice = 2 ∧
  calls (exec (fetch retryTwice failsWithItsIndex) emptyWorld) = 3%nat ∧
  Host.requestFn failsWithItsIndex 0 = Reject (VNum 0) ∧
  outcome (fetch retryTwice failsWithItsIndex) emptyWorld = Thrown (VNum 2) ∧
  outcome (fetch retryTwice failsWithItsIndex) emptyWorld ≠ Thrown (VNum 0).
Proof. vm_compute. by repeat split. Qed.

(** ** What observers see of [data] during a fetch *)

(** While [fetchWithRetry] is suspended, [data] is what it was when the
    call started; at the end it is the value the promise resolved with, or
    still the old one. *)
Lemma fetchWithRetry_data (cfg : Config) (host : Host.t) (fuel : nat) :
  ∀ (attempt : nat) (w : World),
    let r := fetchWithRetry cfg host fuel attempt w in
    ∃ inFlight : list HookState,
      frames (snd r) = inFlight ++ frames w ∧
      Forall (λ h, data h = data (hook w)) inFlight ∧
      data (hook (snd r)) =
        match fst r with
        | Normal v => v
        | Thrown _ | Pending => data (hook w)
        end.
Proof.
  induction fuel as [|fuel IH]; intros attempt w; cbv zeta.
  { exists []. by repeat split. }
  rewrite fetchWithRetry_unfold.
  destruct (afterLookup_eq cfg w) as (f & Hlook & _).
  destruct (truthy (cachedValue cfg w)).
  { rewrite applyCached_eq, Hlook. exists []. by repeat split. }
  destruct (requested_fields cfg host w)
    as (Hhook & _ & _ & waiting & Hframes & Hsame).
  assert (Hwaiting : Forall (λ h, data h = data (hook w)) waiting).
  { eapply Forall_impl; [exact Hsame|]. by intros h ->. }
  destruct (Host.requestFn host (calls w)) as [v|e].
  { rewrite applyResult_eq. exists waiting. by repeat split. }
  cbv zeta. destruct (shouldRetry cfg attempt).
  - destruct (retry_fields cfg host attempt e w) as (Hh1 & _ & _ & Hf1 & _).
    set (w1 := exec (scheduleRetry cfg attempt) _) in *.
    destruct (IH (attempt + 1)%nat w1) as (later & Hfr & Hall & Hdata).
    assert (Hd1 : data (hook w1) = data (hook w)) by by rewrite Hh1.
    rewrite Hd1 in Hall, Hdata.
    exists (later ++ hook w1 :: waiting). split; [|split].
    + by rewrite Hfr, Hf1, Hframes, <- app_assoc.
    + apply Forall_app. split; [done|]. by constructor.
    + exact Hdata.
  - destruct (failed_fields cfg host e w) as (Hhf & _ & _ & Hff & _).
    cbn [fst snd]. exists waiting. rewrite Hff, Hhf. by repeat split.
Qed.

(** C4.  Starting [refetch()] leaves [data] as it is; at every point where
    the fetch is suspended (start delay, request in flight, back-off before
    a retry) observers still see the [data] from before the call; when the
    promise settles, [data] is the value it resolved with, or, on
    rejection, still the old one. *)
Theorem fetch_keeps_data_in_flight (cfg : Config) (host : Host.t) (w : World) :
  let w' := exec (fetch cfg host) w in
  data (hook (exec (setStatus Loading) w)) = data (hook w) ∧
  ∃ inFlight : list HookState,
    frames w' = inFlight ++ frames w ∧
    Forall (λ h, data h = data (hook w)) inFlight ∧
    match outcome (fetch cfg host) w with
    | Normal v => data (hook w') = v
    | Thrown _ => data (hook w') = data (hook w)
    | Pending => False
    end.
Proof.
  cbv zeta. split; [done|].
  pose proof (fetch_settles cfg host w) as Hsettles.
  unfold outcome, exec in *. rewrite fetch_eq in *.
  destruct (fetchWithRetry_data cfg host (retryBudget cfg) 0
              (exec (setStatus Loading) w)) as (inFlight & Hfr & Hall & Hdata).
  exists inFlight. split; [exact Hfr|]. split; [exact Hall|].
  rewrite Hdata. by destruct (fst _).
Qed.

(** ** The retry counter after a success *)

Lemma fetchWithRetry_calls_mono (cfg : Config) (host : Host.t) (fuel : nat) :
  ∀ (attempt : nat) (w : World),
    (calls w ≤ calls (exec (fetchWithRetry cfg host fuel attempt) w))%nat.
Proof.
  unfold exec.
  induction fuel as [|fuel IH]; intros attempt w; [done|].
  rewrite fetchWithRetry_unfold.
  destruct (afterLookup_eq cfg w) as (f & Hlook & _).
  destruct (truthy (cachedValue cfg w)).
  { by rewrite applyCached_eq, Hlook. }
  pose proof (requested_eq cfg host w) as Hreq. cbv zeta in Hreq.
  assert (Hcalls : calls (requested cfg host w) = S (calls w))
    by by rewrite Hreq.
  destruct (Host.requestFn host (calls w)) as [v|e].
  { rewrite applyResult_eq. cbn. lia. }
  cbv zeta. unfold exec. rewrite recordFailure_eq. cbn [snd].
  destruct (shouldRetry cfg attempt); [|cbn; lia].
  rewrite scheduleRetry_eq. cbv zeta. cbn [snd].
  etransitivity; [|apply IH]. cbn. lia.
Qed.

(** A miss invokes the operation. *)
Lemma miss_invokes (cfg : Config) (host : Host.t) (fuel attempt : nat)
    (w : World) :
  truthy (cachedValue cfg w) = false →
  (calls w < calls (exec (fetchWithRetry cfg host (S fuel) attempt) w))%nat.
Proof.
  intros Hmiss. unfold exec. rewrite fetchWithRetry_unfold, Hmiss.
  pose proof (requested_eq cfg host w) as Hreq. cbv zeta in Hreq.
  assert (Hcalls : calls (requested cfg host w) = S (calls w))
    by by rewrite Hreq.
  destruct (Host.requestFn host (calls w)) as [v|e].
  { rewrite applyResult_eq. cbn. lia. }
  cbv zeta. unfold exec. rewrite recordFailure_eq. cbn [snd].
  destruct (shouldRetry cfg attempt); [|cbn; lia].
  rewrite scheduleRetry_eq. cbv zeta. cbn [snd].
  eapply Nat.lt_le_trans; [|apply fetchWithRetry_calls_mono]. cbn. lia.
Qed.

(** Where the cache cannot answer, a promise that resolves was resolved by
    the operation, and the success path has zeroed the counter. *)
Lemma resolved_without_cache (cfg : Config) (host : Host.t) (fuel : nat) :
  ∀ (attempt : nat) (w : World) (v : value),
    cold cfg (cache w) →
    outcome (fetchWithRetry cfg host fuel attempt) w = Normal v →
    let w' := exec (fetchWithRetry cfg host fuel attempt) w in
    retryCount (hook w') = 0%nat ∧
    isFetched (hook w') = true ∧
    status (hook w') = Success.
Proof.
  unfold outcome, exec.
  induction fuel as [|fuel IH]; intros attempt w v Hcold; [done|].
  cbv zeta. rewrite fetchWithRetry_unfold, (cold_miss _ _ Hcold).
  destruct (Host.requestFn host (calls w)) as [v'|e].
  { rewrite applyResult_eq. by cbn. }
  cbv zeta. destruct (shouldRetry cfg attempt); [|done].
  apply IH. unfold exec. rewrite scheduleRetry_eq, recordFailure_eq. cbn.
  by apply cold_requested.
Qed.

(** C6.  When [refetch()] resolves and the operation was invoked for it
    (the call ended in a successful attempt, not in a cache hit),
    [retryCount] is 0 afterwards, whatever it was before the call and
    however many attempts of this call failed. *)
Theorem retryCount_zero_after_success (cfg : Config) (host : Host.t)
    (w : World) (v : value) :
  outcome (fetch cfg host) w = Normal v →
  (calls w < calls (exec (fetch cfg host) w))%nat →
  retryCount (hook (exec (fetch cfg host) w)) = 0%nat.
Proof.
  unfold outcome, exec. rewrite fetch_eq. unfold retryBudget.
  set (w0 := exec (setStatus Loading) w).
  change (calls w) with (calls w0).
  rewrite fetchWithRetry_unfold.
  destruct (afterLookup_eq cfg w0) as (f & Hlook & _).
  destruct (truthy (cachedValue cfg w0)) eqn:Hc.
  { rewrite applyCached_eq, Hlook. cbn. lia. }
  destruct (Host.requestFn host (calls w0)) as [v'|e].
  { rewrite applyResult_eq. by cbn. }
  cbv zeta. destruct (shouldRetry cfg 0); [|done].
  intros Hres _.
  eapply (resolved_without_cache cfg host); [|exact Hres].
  unfold exec. rewrite scheduleRetry_eq, recordFailure_eq, requested_eq. cbn.
  by apply miss_cold.
Qed.

Lemma retryCount_zero_after_success_witness :
  retryCount (hook afterThreeFailures) = 2%nat ∧
  retryCount
    (hook (exec (fetch retryTwice (failsThenResolves 4 (VStr "boom") (VNum 7)))
             afterThreeFailures)) = 0%nat.
Proof.
  split; [reflexivity|].
  apply (retryCount_zero_after_success retryTwice
           (failsThenResolves 4 (VStr "boom") (VNum 7))
           afterThreeFailures (VNum 7)).
  - reflexivity.
  - vm_compute. lia.
Defined.

(** ** A fetch answered by the cache *)

(** C10.  When the lookup at the start of [refetch()] is a hit, the promise
    resolves with the cached value, [data] is that value and [status] is
    success; the operation is not invoked and the task is never suspended;
    [isFetched], [retryCount] and [error] are what they were before the
    call. *)
Theorem cache_hit_leaves_bookkeeping (cfg : Config) (host : Host.t)
    (w : World) :
  truthy (cachedValue cfg w) = true →
  let w' := exec (fetch cfg host) w in
  outcome (fetch cfg host) w = Normal (cachedValue cfg w) ∧
  data (hook w') = cachedValue cfg w ∧
  status (hook w') = Success ∧
  isFetched (hook w') = isFetched (hook w) ∧
  retryCount (hook w') = retryCount (hook w) ∧
  error (hook w') = error (hook w) ∧
  calls w' = calls w ∧
  frames w' = frames w.
Proof.
  intros Hhit. unfold outcome, exec. rewrite fetch_eq. unfold retryBudget.
  set (w0 := exec (setStatus Loading) w).
  rewrite fetchWithRetry_unfold.
  change (cachedValue cfg w0) with (cachedValue cfg w). rewrite Hhit.
  destruct (afterLookup_eq cfg w0) as (f & Hlook & _).
  rewrite applyCached_eq, Hlook. by repeat split.
Qed.

Lemma cache_hit_leaves_bookkeeping_witness :
  (retryCount (hook failedThenSet) = 2%nat ∧
   outcome (fetch cachedRetryU1 (failsWith (VStr "boom"))) failedThenSet =
     Normal (VNum 5) ∧
   retryCount
     (hook (exec (fetch cachedRetryU1 (failsWith (VStr "boom"))) failedThenSet))
     = 2%nat) ∧
  (outcome (fetch cachedU1 (resolvesWith (VNum 9))) warmWorld =
     Normal (VNum 5) ∧
   status (hook (exec (fetch cachedU1 (resolvesWith (VNum 9))) warmWorld)) =
     Success ∧
   isFetched (hook (exec (fetch cachedU1 (resolvesWith (VNum 9))) warmWorld)) =
     false).
Proof.
  split.
  - pose proof (cache_hit_leaves_bookkeeping cachedRetryU1
                  (failsWith (VStr "boom")) failedThenSet eq_refl)
      as (Hout & _ & _ & _ & Hretry & _).
    split; [reflexivity|]. split; [exact Hout|]. exact Hretry.
  - pose proof (cache_hit_leaves_bookkeeping cachedU1
                  (resolvesWith (VNum 9)) warmWorld eq_refl)
      as (Hout & _ & Hstatus & Hfetched & _).
    split; [exact Hout|]. split; [exact Hstatus|]. exact Hfetched.
Defined.

(** ** Mounting *)

Lemma firstRender_eq (cfg : Config) (w : World) :
  firstRender cfg w =
    (Normal tt,
     with_hook
       (λ _, {| data := js_or (cachedValue cfg w) (initialData cfg);
                status := if manual cfg then Idle else Loading;
                error := VNull; retryCount := 0; isFetched := false |})
       (afterLookup cfg w)).
Proof.
  unfold firstRender, initialState. unfold bind at 1 2.
  by rewrite getCachedData_eq.
Qed.

Lemma mount_eq (cfg : Config) (host : Host.t) (w : World) :
  mount cfg host w = autoExecute cfg host (exec (firstRender cfg) w).
Proof.
  unfold mount, exec. unfold bind at 1. by rewrite firstRender_eq.
Qed.

Lemma autoExecute_eq (cfg : Config) (host : Host.t) (w : World) :
  autoExecute cfg host w =
    if manual cfg then (Normal tt, w)
    else (Normal tt, exec (fetch cfg host) w).
Proof.
  unfold autoExecute. destruct (manual cfg); [done|].
  unfold try_catch, bind, exec.
  pose proof (fetch_settles cfg host w) as Hsettles.
  unfold outcome in Hsettles.
  by destruct (fetch cfg host w) as [[v|e|] w'].
Qed.

(** C7.  The first render invokes nothing and leaves [status] idle when
    [manual] is set, loading when it is not.  With [manual: true],
    mounting ends there: the operation has not been invoked, and it is the
    explicit [refetch()] that invokes it (where the cache does not answer).
    With [manual: false], the effect that follows the first render runs
    [fetch()] at once. *)
Theorem mount_manual_or_automatic (cfg : Config) (host : Host.t) (w : World) :
  let rendered := exec (firstRender cfg) w in
  let mounted := exec (mount cfg host) w in
  status (hook rendered) = (if manual cfg then Idle else Loading) ∧
  calls rendered = calls w ∧
  outcome (mount cfg host) w = Normal tt ∧
  if manual cfg then
    mounted = rendered ∧
    calls mounted = calls w ∧
    status (hook mounted) = Idle ∧
    (truthy (cachedValue cfg w) = false →
       (calls w < calls (exec (fetch cfg host) mounted))%nat)
  else
    mounted = exec (fetch cfg host) rendered.
Proof.
  cbv zeta.
  assert (Hcalls : calls (exec (firstRender cfg) w) = calls w).
  { unfold exec. rewrite firstRender_eq.
    destruct (afterLookup_eq cfg w) as (f & -> & _). done. }
  assert (Hstatus : status (hook (exec (firstRender cfg) w)) =
                    if manual cfg then Idle else Loading).
  { unfold exec. by rewrite firstRender_eq. }
  split; [exact Hstatus|]. split; [exact Hcalls|].
  pose proof (mount_eq cfg host w) as Hmount.
  rewrite autoExecute_eq in Hmount.
  assert (Hexec : exec (mount cfg host) w = snd (mount cfg host w)) by done.
  unfold outcome. rewrite Hexec, Hmount.
  destruct (manual cfg); [|by repeat split].
  cbn [fst snd]. repeat split; try done.
  intros Hmiss. rewrite <- Hcalls. unfold exec at 2. rewrite fetch_eq.
  set (loading := exec (setStatus Loading) (exec (firstRender cfg) w)).
  change (calls (exec (firstRender cfg) w)) with (calls loading).
  apply (miss_invokes cfg host).
  apply cold_miss. subst loading. unfold exec. rewrite firstRender_eq. cbn.
  by apply miss_cold.
Qed.

Lemma mount_manual_or_automatic_witness :
  calls (exec (mount retryTwice (resolvesWith (VNum 7))) emptyWorld) = 0%nat ∧
  status (hook (exec (mount retryTwice (resolvesWith (VNum 7))) emptyWorld)) =
    Idle ∧
  (0 < calls (exec (fetch retryTwice (resolvesWith (VNum 7)))
                (exec (mount retryTwice (resolvesWith (VNum 7))) emptyWorld)))%nat.
Proof.
  pose proof (mount_manual_or_automatic retryTwice (resolvesWith (VNum 7))
                emptyWorld) as (_ & _ & _ & Hmanual).
  change (manual retryTwice) with true in Hmanual. cbv iota in Hmanual.
  destruct Hmanual as (_ & Hcalls & Hstatus & Hrefetch).
  split; [exact Hcalls|]. split; [exact Hstatus|].
  exact (Hrefetch eq_refl).
Defined.

(** ** A falsy cached value is no answer *)

Section FalsyCached.

Variable cfg : Config.
Variable host : Host.t.

Lemma cache_afterLookup (w : World) :
  cache (afterLookup cfg w) =
    match cacheSlot cfg with
    | Some key =>
      match cache w !! key with
      | Some item =>
        if now w - CacheItem.timestamp item >? cacheTTL cfg
        then delete key (cache w) else cache w
      | None => cache w
      end
    | None => cache w
    end.
Proof.
  unfold afterLookup. destruct (cacheSlot cfg) as [key|]; [|done].
  destruct (cache w !! key) as [item|]; [|done]. by destruct (_ >? _).
Qed.

Lemma missAlike_lookup (w1 w2 : World) :
  missAlike cfg w1 w2 →
  truthy (cachedValue cfg w1) = truthy (cachedValue cfg w2) ∧
  (truthy (cachedValue cfg w1) = true →
     cachedValue cfg w1 = cachedValue cfg w2) ∧
  falsyOrAbsent cfg (cache (afterLookup cfg w1)) (cache (afterLookup cfg w2)).
Proof.
  intros [(_ & Hnow & _) Hcache]. rewrite !cache_afterLookup.
  unfold cachedValue. rewrite <- Hnow.
  destruct Hcache as [<- | (key & item & Hslot & Hitem & Hfalsy & ->)].
  - repeat split; try done. by left.
  - rewrite Hslot, Hitem, lookup_delete_eq.
    destruct (_ >? _).
    + repeat split; try done. by left.
    + rewrite Hfalsy. repeat split; try done.
      right. by exists key, item.
Qed.

Lemma missAlike_requested (w1 w2 : World) :
  missAlike cfg w1 w2 →
  missAlike cfg (requested cfg host w1) (requested cfg host w2).
Proof.
  intros Halike.
  destruct (missAlike_lookup w1 w2 Halike) as (_ & _ & Hcache).
  destruct Halike as [(Hhook & Hnow & Hcalls & Hlog & Hframes) _].
  rewrite !requested_eq. cbv zeta. split; [|exact Hcache].
  unfold sameButCache. cbn. by rewrite Hhook, Hnow, Hcalls, Hlog, Hframes.
Qed.

(** A write to the slot makes the two stores equal. *)
Lemma falsyOrAbsent_insert (key : string) (item : CacheItem.t)
    (c1 c2 : gmap string CacheItem.t) :
  cacheSlot cfg = Some key →
  falsyOrAbsent cfg c1 c2 →
  <[key := item]> c1 = <[key := item]> c2.
Proof.
  intros Hslot [<- | (key' & item' & Hslot' & _ & _ & ->)]; [done|].
  rewrite Hslot in Hslot'. injection Hslot' as <-.
  by rewrite insert_delete_eq.
Qed.

Lemma missAlike_applyResult (v : value) (w1 w2 : World) :
  missAlike cfg w1 w2 →
  missAlike cfg (snd (applyResult cfg v w1)) (snd (applyResult cfg v w2)).
Proof.
  intros [(Hhook & Hnow & Hcalls & Hlog & Hframes) Hcache].
  rewrite !applyResult_eq. cbn [snd]. split.
  - unfold sameButCache. cbn. by rewrite Hhook, Hnow, Hcalls, Hlog, Hframes.
  - cbn. destruct (cacheSlot cfg) as [key|] eqn:Hslot; [|done].
    left. rewrite Hnow. by apply falsyOrAbsent_insert.
Qed.

Lemma missAlike_applyCached (c : value) (w1 w2 : World) :
  missAlike cfg w1 w2 →
  missAlike cfg (snd (applyCached cfg c w1)) (snd (applyCached cfg c w2)).
Proof.
  intros [(Hhook & Hnow & Hcalls & Hlog & Hframes) Hcache].
  rewrite !applyCached_eq. cbn [snd]. split.
  - unfold sameButCache. cbn. by rewrite Hhook, Hnow, Hcalls, Hlog, Hframes.
  - cbn. unfold exec. rewrite !setData_eq. cbn.
    destruct (cacheSlot cfg) as [key|] eqn:Hslot; [|done].
    destruct (truthy c); [|done].
    left. rewrite Hnow. by apply falsyOrAbsent_insert.
Qed.

Lemma missAlike_with_cache (w1 w2 : World) (f1 f2 : _ → _) :
  sameButCache w1 w2 →
  falsyOrAbsent cfg (cache (with_cache f1 w1)) (cache (with_cache f2 w2)) →
  missAlike cfg (with_cache f1 w1) (with_cache f2 w2).
Proof. intros Hsame Hcache. by split. Qed.

Lemma missAlike_failed (e : value) (w1 w2 : World) :
  missAlike cfg w1 w2 →
  missAlike cfg (exec (recordFailure cfg e) w1) (exec (recordFailure cfg e) w2).
Proof.
  intros [(Hhook & Hnow & Hcalls & Hlog & Hframes) Hcache].
  unfold exec. rewrite !recordFailure_eq. cbn [snd]. split; [|done].
  unfold sameButCache. cbn. by rewrite Hhook, Hnow, Hcalls, Hlog, Hframes.
Qed.

Lemma missAlike_retry (attempt : nat) (w1 w2 : World) :
  missAlike cfg w1 w2 →
  missAlike cfg (exec (scheduleRetry cfg attempt) w1)
    (exec (scheduleRetry cfg attempt) w2).
Proof.
  intros [(Hhook & Hnow & Hcalls & Hlog & Hframes) Hcache].
  unfold exec. rewrite !scheduleRetry_eq. cbn [snd]. split; [|done].
  unfold sameButCache. cbn. by rewrite Hhook, Hnow, Hcalls, Hlog, Hframes.
Qed.

(** Two runs from worlds alike in this sense settle alike. *)
Lemma fetchWithRetry_missAlike (fuel : nat) :
  ∀ (attempt : nat) (w1 w2 : World),
    missAlike cfg w1 w2 →
    fst (fetchWithRetry cfg host fuel attempt w1) =
      fst (fetchWithRetry cfg host fuel attempt w2) ∧
    missAlike cfg (snd (fetchWithRetry cfg host fuel attempt w1))
      (snd (fetchWithRetry cfg host fuel attempt w2)).
Proof.
  induction fuel as [|fuel IH]; intros attempt w1 w2 Halike; [done|].
  rewrite !fetchWithRetry_unfold.
  destruct (missAlike_lookup w1 w2 Halike) as (Htruthy & Hvalue & Hcache).
  pose proof (missAlike_requested w1 w2 Halike) as Hreq.
  assert (Hcalls : calls w1 = calls w2) by apply Halike.
  rewrite <- Htruthy, <- Hcalls.
  destruct (truthy (cachedValue cfg w1)).
  - rewrite <- Hvalue by done.
    destruct (afterLookup_eq cfg w1) as (f1 & Hl1 & _).
    destruct (afterLookup_eq cfg w2) as (f2 & Hl2 & _).
    assert (Hlook : missAlike cfg (afterLookup cfg w1) (afterLookup cfg w2)).
    { split; [|done]. rewrite Hl1, Hl2. apply Halike. }
    split; [by rewrite !applyCached_eq|].
    by apply missAlike_applyCached.
  - destruct (Host.requestFn host (calls w1)) as [v|e].
    + split; [by rewrite !applyResult_eq|].
      by apply missAlike_applyResult.
    + cbv zeta. destruct (shouldRetry cfg attempt).
      * apply IH. by apply missAlike_retry, missAlike_failed.
      * split; [done|]. by apply missAlike_failed.
Qed.

End FalsyCached.

(** C9.  Let this instance cache under [key], and let the store hold under
    [key] an unexpired entry whose value is falsy.  The lookup returns that
    value, yet the initial [data] is [initialData], and a [refetch()]
    invokes the operation: it settles the same way, with the same hook
    state, the same invocations, callbacks, timers and frames, as in the
    world where the store has no entry under [key]. *)
Theorem falsy_cached_value_is_a_miss (cfg : Config) (host : Host.t)
    (key : string) (item : CacheItem.t) (w : World) :
  cacheSlot cfg = Some key →
  cache w !! key = Some item →
  now w - CacheItem.timestamp item ≤ cacheTTL cfg →
  truthy (CacheItem.data item) = false →
  let absent := with_cache (delete key) w in
  outcome (getCachedData cfg) w = Normal (CacheItem.data item) ∧
  data (hook (exec (firstRender cfg) w)) = initialData cfg ∧
  (calls w < calls (exec (fetch cfg host) w))%nat ∧
  outcome (fetch cfg host) w = outcome (fetch cfg host) absent ∧
  sameButCache (exec (fetch cfg host) w) (exec (fetch cfg host) absent).
Proof.
  intros Hslot Hitem Hfresh Hfalsy absent.
  destruct (cachedValue_stored cfg key item w Hslot Hitem) as [Hvalue _].
  assert (Hunexpired :
    (now w - CacheItem.timestamp item >? cacheTTL cfg) = false) by lia.
  rewrite Hunexpired in Hvalue.
  assert (Hmiss : truthy (cachedValue cfg w) = false) by by rewrite Hvalue.
  split; [|split; [|split]].
  - unfold outcome. by rewrite getCachedData_eq, Hvalue.
  - unfold exec. rewrite firstRender_eq. cbn. unfold js_or. by rewrite Hmiss.
  - unfold exec. rewrite fetch_eq.
    change (calls w) with (calls (exec (setStatus Loading) w)).
    by apply miss_invokes.
  - assert (Halike : missAlike cfg (exec (setStatus Loading) w)
                       (exec (setStatus Loading) absent)).
    { split; [done|]. right. by exists key, item. }
    unfold outcome, exec. rewrite !fetch_eq.
    destruct (fetchWithRetry_missAlike cfg host (retryBudget cfg) 0 _ _ Halike)
      as [Hout [Hsame _]].
    by split.
Qed.

Lemma falsy_cached_value_is_a_miss_witness :
  cache zeroCached !! "u1"%string =
    Some {| CacheItem.data := VNum 0; CacheItem.timestamp := 5 |} ∧
  outcome (getCachedData cachedU1) zeroCached = Normal (VNum 0) ∧
  (calls zeroCached < calls (exec (fetch cachedU1 (resolvesWith (VNum 9)))
                              zeroCached))%nat.
Proof.
  assert (Hitem : cache zeroCached !! "u1"%string =
                  Some {| CacheItem.data := VNum 0; CacheItem.timestamp := 5 |})
    by (vm_compute; reflexivity).
  split; [exact Hitem|].
  pose proof (falsy_cached_value_is_a_miss cachedU1 (resolvesWith (VNum 9))
                "u1" {| CacheItem.data := VNum 0; CacheItem.timestamp := 5 |}
                zeroCached eq_refl Hitem ltac:(vm_compute; discriminate)
                eq_refl)
    as (Hget & _ & Hcalls & _).
  exact (conj Hget Hcalls).
Defined.

(** ** Scenarios, run *)

(** [cache: true, cacheKey: "u1", cacheTTL: 1000]: the first [refetch()]
    stores the result at time 5, and a second one at time 900 is answered
    by the cache.  The hit goes through [setData], which stores the value
    again with the time of the hit: a third call at 1105 is still answered
    by the cache, and only a call later than 1900 invokes the operation
    again. *)
Example cached_then_restamped_then_expired :
  let host := resolvesWith (VNum 7) in
  let first := exec (fetch cachedU1 host) emptyWorld in
  let second := exec (fetch cachedU1 host) (at_time 900 first) in
  let third := exec (fetch cachedU1 host) (at_time 1105 second) in
  let fourth := exec (fetch cachedU1 host) (at_time 2106 third) in
  calls first = 1%nat ∧ now first = 5 ∧
  calls second = 1%nat ∧ calls third = 1%nat ∧ calls fourth = 2%nat ∧
  data (hook fourth) = VNum 7 ∧ status (hook fourth) = Success.
Proof. vm_compute. by repeat split. Qed.

(** [autoRetry: true, maxRetries: 2]: two failures, then a success; the
    hook goes through error twice and ends in success with the counter
    zeroed. *)
Example two_failures_then_success :
  let host := failsThenResolves 2 (VStr "boom") (VNum 7) in
  let w := exec (fetch retryTwice host) emptyWorld in
  outcome (fetch retryTwice host) emptyWorld = Normal (VNum 7) ∧
  calls w = 3%nat ∧
  map retryCount (frames w) = [2; 2; 1; 1; 0]%nat ∧
  map status (frames w) = [Error; Error; Error; Error; Loading] ∧
  log w = [Request 2; Sleep 2000; Request 1; Sleep 1000; Request 0] ∧
  hook w = {| data := VNum 7; status := Success; error := VStr "boom";
              retryCount := 0; isFetched := true |}.
Proof. vm_compute. by repeat split. Qed.

(** Without [autoRetry] a failure is rejected at once. *)
Example no_retry_by_default :
  let w := exec (mount (destructure noOptions) (failsWith (VStr "boom")))
             emptyWorld in
  calls w = 1%nat ∧ status (hook w) = Error ∧ error (hook w) = VStr "boom" ∧
  isFetched (hook w) = true ∧ retryCount (hook w) = 0%nat.
Proof. vm_compute. by repeat split. Qed.

(** * More of the hook *)

(** ** Reasoning by the cases of [fetchWithRetry] *)

(** The four ways an attempt can go: answered by the cache, resolved,
    rejected for good, rejected and retried.  A property of the run from
    attempt [a] in world [w] that holds in the first three and is carried
    back from the retry holds of every run. *)
Lemma fetchWithRetry_cases (cfg : Config) (host : Host.t)
    (P : nat → World → completion value * World → Prop) :
  (∀ a w, P a w (Pending, w)) →
  (∀ a w,
     truthy (cachedValue cfg w) = true →
     P a w (applyCached cfg (cachedValue cfg w) (afterLookup cfg w))) →
  (∀ a w v,
     truthy (cachedValue cfg w) = false →
     Host.requestFn host (calls w) = Resolve v →
     P a w (applyResult cfg v (requested cfg host w))) →
  (∀ a w e,
     truthy (cachedValue cfg w) = false →
     Host.requestFn host (calls w) = Reject e →
     shouldRetry cfg a = false →
     P a w (Thrown e, exec (recordFailure cfg e) (requested cfg host w))) →
  (∀ a w e r,
     truthy (cachedValue cfg w) = false →
     Host.requestFn host (calls w) = Reject e →
     shouldRetry cfg a = true →
     P (a + 1)%nat
       (exec (scheduleRetry cfg a)
          (exec (recordFailure cfg e) (requested cfg host w))) r →
     P a w r) →
  ∀ fuel a w, P a w (fetchWithRetry cfg host fuel a w).
Proof.
  intros Hout Hhit Hok Hfail Hretry.
  induction fuel as [|fuel IH]; intros a w; [apply Hout|].
  rewrite fetchWithRetry_unfold.
  destruct (truthy (cachedValue cfg w)) eqn:Hc; [by apply Hhit|].
  destruct (Host.requestFn host (calls w)) as [v|e] eqn:Hreq; [by apply Hok|].
  cbv zeta. destruct (shouldRetry cfg a) eqn:Hs.
  - eapply Hretry; [done..|]. apply IH.
  - by apply Hfail.
Qed.

(** The world in which a retry starts cannot be answered by the cache. *)
Lemma cold_retry (cfg : Config) (host : Host.t) (a : nat) (e : value)
    (w : World) :
  truthy (cachedValue cfg w) = false →
  cold cfg
    (cache (exec (scheduleRetry cfg a)
              (exec (recordFailure cfg e) (requested cfg host w)))).
Proof.
  intros Hmiss.
  destruct (retry_fields cfg host a e w) as (_ & -> & _).
  by apply miss_cold.
Qed.

(** A fetch answered by the cache, as an equation. *)
Lemma fetch_hit_eq (cfg : Config) (host : Host.t) (w : World) :
  truthy (cachedValue cfg w) = true →
  fetch cfg host w =
    applyCached cfg (cachedValue cfg w)
      (afterLookup cfg (exec (setStatus Loading) w)).
Proof.
  intros Hhit. rewrite fetch_eq. unfold retryBudget.
  rewrite fetchWithRetry_unfold.
  change (cachedValue cfg (exec (setStatus Loading) w))
    with (cachedValue cfg w).
  by rewrite Hhit.
Qed.

(** ** Where a fetch leaves the hook *)

Lemma fetchWithRetry_final_state (cfg : Config) (host : Host.t) (fuel : nat) :
  ∀ (a : nat) (w : World),
    let r := fetchWithRetry cfg host fuel a w in
    match fst r with
    | Normal v => status (hook (snd r)) = Success ∧ data (hook (snd r)) = v
    | Thrown e =>
      status (hook (snd r)) = Error ∧ error (hook (snd r)) = e ∧
      isFetched (hook (snd r)) = true
    | Pending => True
    end.
Proof.
  apply (fetchWithRetry_cases cfg host
           (λ _ _ r,
              match fst r with
              | Normal v =>
                status (hook (snd r)) = Success ∧ data (hook (snd r)) = v
              | Thrown e =>
                status (hook (snd r)) = Error ∧ error (hook (snd r)) = e ∧
                isFetched (hook (snd r)) = true
              | Pending => True
              end)).
  - done.
  - intros a w _. by rewrite applyCached_eq.
  - intros a w v _ _. by rewrite applyResult_eq.
  - intros a w e _ _ _. cbn [fst snd].
    by destruct (failed_fields cfg host e w) as (-> & _).
  - done.
Qed.

(** X1.  However a [refetch()] ends, it does not leave the hook loading:
    when the promise resolves with [v], [status] is success and [data] is
    [v]; when it is rejected with [e], [status] is error, [error] is [e] and
    [isFetched] is set; in both cases the [loading] flag the component sees
    is false. *)
Theorem fetch_settles_status (cfg : Config) (host : Host.t) (w : World) :
  let w' := exec (fetch cfg host) w in
  Result.loading (returned (hook w')) = false ∧
  match outcome (fetch cfg host) w with
  | Normal v => status (hook w') = Success ∧ data (hook w') = v
  | Thrown e =>
    status (hook w') = Error ∧ error (hook w') = e ∧
    isFetched (hook w') = true
  | Pending => False
  end.
Proof.
  cbv zeta. pose proof (fetch_settles cfg host w) as Hsettles.
  unfold outcome, exec in *. rewrite fetch_eq in *.
  pose proof (fetchWithRetry_final_state cfg host (retryBudget cfg) 0
                (exec (setStatus Loading) w)) as Hfinal.
  cbv zeta in Hfinal. unfold returned, loading. cbn [Result.loading].
  destruct (fst _) as [v|e|]; [| |done].
  - destruct Hfinal as [Hs Hd]. rewrite Hs. by split.
  - destruct Hfinal as (Hs & He & Hf). rewrite Hs. by split.
Qed.

Lemma fetch_settles_status_example :
  let w := exec (fetch retryTwice (failsWith (VStr "boom"))) emptyWorld in
  Result.loading (returned (hook w)) = false ∧
  Result.status (returned (hook w)) = Error.
Proof. vm_compute. by split. Qed.

(** ** How often the operation is invoked *)

Lemma fetchWithRetry_calls_bound (cfg : Config) (host : Host.t) (fuel : nat) :
  ∀ (a : nat) (w : World),
    (calls (snd (fetchWithRetry cfg host fuel a w)) ≤
     calls w +
     (if autoRetry cfg then S (Z.to_nat (maxRetries cfg - Z.of_nat a)) else 1))%nat.
Proof.
  apply (fetchWithRetry_cases cfg host
           (λ a w r,
              (calls (snd r) ≤
               calls w +
               (if autoRetry cfg
                then S (Z.to_nat (maxRetries cfg - Z.of_nat a)) else 1))%nat)).
  - intros a w. cbn. lia.
  - intros a w _. rewrite applyCached_eq. cbn.
    destruct (afterLookup_eq cfg w) as (f & -> & _). cbn. lia.
  - intros a w v _ _. rewrite applyResult_eq. cbn.
    destruct (requested_fields cfg host w) as (_ & _ & -> & _).
    destruct (autoRetry cfg); lia.
  - intros a w e _ _ _. cbn [snd].
    destruct (failed_fields cfg host e w) as (_ & _ & -> & _).
    destruct (autoRetry cfg); lia.
  - intros a w e r _ _ Hretry.
    destruct (retry_fields cfg host a e w) as (_ & _ & -> & _).
    apply shouldRetry_true in Hretry as [-> Hlt]. lia.
Qed.

(** X2.  One [refetch()] invokes the operation at most once when
    [autoRetry] is off, and at most [maxRetries + 1] times when it is on
    (once, when [maxRetries] is zero or negative); the count of invocations
    never decreases. *)
Theorem fetch_invocation_bound (cfg : Config) (host : Host.t) (w : World) :
  let w' := exec (fetch cfg host) w in
  (calls w ≤ calls w')%nat ∧
  (calls w' ≤
   calls w + (if autoRetry cfg then S (Z.to_nat (maxRetries cfg)) else 1))%nat.
Proof.
  cbv zeta. unfold exec. rewrite fetch_eq. split.
  - apply (fetchWithRetry_calls_mono cfg host (retryBudget cfg) 0
             (exec (setStatus Loading) w)).
  - pose proof (fetchWithRetry_calls_bound cfg host (retryBudget cfg) 0
                  (exec (setStatus Loading) w)) as Hbound.
    by rewrite Z.sub_0_r in Hbound.
Qed.

(** X3.  Where no retry is due after the first attempt ([autoRetry] off,
    or [maxRetries] zero or negative), a [refetch()] that misses the cache
    and whose request is rejected with [e] invokes the operation once and
    is rejected with [e]; [status] is error, [error] is [e], [isFetched] is
    set, and [data] and [retryCount] are what they were. *)
Theorem failure_without_retry (cfg : Config) (host : Host.t) (w : World)
    (e : value) :
  autoRetry cfg = false ∨ maxRetries cfg ≤ 0 →
  truthy (cachedValue cfg w) = false →
  Host.requestFn host (calls w) = Reject e →
  let w' := exec (fetch cfg host) w in
  outcome (fetch cfg host) w = Thrown e ∧
  calls w' = S (calls w) ∧
  hook w' =
    {| data := data (hook w); status := Error; error := e;
       retryCount := retryCount (hook w); isFetched := true |}.
Proof.
  intros Hno Hmiss Hreject. cbv zeta.
  assert (Hretry : shouldRetry cfg 0 = false).
  { unfold shouldRetry. destruct Hno as [-> | Hle]; [done|].
    apply andb_false_iff. right. apply Z.ltb_ge. lia. }
  unfold outcome, exec. rewrite fetch_eq. unfold retryBudget.
  rewrite fetchWithRetry_unfold.
  change (cachedValue cfg (exec (setStatus Loading) w))
    with (cachedValue cfg w).
  change (calls (exec (setStatus Loading) w)) with (calls w).
  rewrite Hmiss, Hreject. cbv zeta. rewrite Hretry. cbn [fst snd].
  destruct (failed_fields cfg host e (exec (setStatus Loading) w))
    as (Hhook & _ & Hcalls & _).
  by rewrite Hhook, Hcalls.
Qed.

Lemma failure_without_retry_witness :
  outcome (fetch cachedU1 (failsWith (VStr "boom"))) afterThreeFailures =
    Thrown (VStr "boom") ∧
  calls (exec (fetch cachedU1 (failsWith (VStr "boom"))) afterThreeFailures) =
    4%nat ∧
  retryCount
    (hook (exec (fetch cachedU1 (failsWith (VStr "boom"))) afterThreeFailures))
    = 2%nat.
Proof.
  pose proof (failure_without_retry cachedU1 (failsWith (VStr "boom"))
                afterThreeFailures (VStr "boom")
                (or_introl eq_refl) eq_refl eq_refl)
    as (Hout & Hcalls & Hhook).
  split; [exact Hout|]. split; [exact Hcalls|]. by rewrite Hhook.
Defined.

(** ** What an attempt writes to the log *)

Lemma requested_log (cfg : Config) (host : Host.t) (w : World) :
  log (requested cfg host w) =
    Request (calls w)
    :: (if 0 <? delay cfg then [Sleep (delay cfg)] else []) ++ log w.
Proof. rewrite requested_eq. cbv zeta. cbn. by destruct (0 <? delay cfg). Qed.

Lemma failed_log (cfg : Config) (host : Host.t) (e : value) (w : World) :
  log (exec (recordFailure cfg e) (requested cfg host w)) =
    (if onError cfg then [OnError e] else []) ++ log (requested cfg host w).
Proof. unfold exec. rewrite recordFailure_eq. cbn. by destruct (onError cfg). Qed.

Lemma retry_log (cfg : Config) (host : Host.t) (a : nat) (e : value)
    (w : World) :
  log (exec (scheduleRetry cfg a)
         (exec (recordFailure cfg e) (requested cfg host w))) =
    Sleep (retryDelay cfg a)
    :: log (exec (recordFailure cfg e) (requested cfg host w)).
Proof. unfold exec at 1. by rewrite scheduleRetry_eq. Qed.

(** ** A run that uses up its retries *)

Lemma timers_eq (cfg : Config) (a : nat) :
  timers cfg a = startTimer cfg ++ timersBefore cfg a.
Proof. destruct a; cbn; by rewrite ?app_nil_r. Qed.

Section Exhausted.

Variable cfg : Config.
Variable host : Host.t.
Variable err : nat → value.

Hypothesis auto : autoRetry cfg = true.
Hypothesis fails : ∀ n, Host.requestFn host n = Reject (err n).

(** The run from attempt [a] on: every remaining attempt invokes the
    operation, the counter ends at [maxRetries] once a retry was taken, and
    the timers set are those of the attempts from [a] on. *)
Lemma exhausting_run (fuel : nat) :
  ∀ (a : nat) (w : World),
    truthy (cachedValue cfg w) = false →
    Z.of_nat a ≤ maxRetries cfg →
    (Z.to_nat (maxRetries cfg - Z.of_nat a) < fuel)%nat →
    let last := (calls w + Z.to_nat (maxRetries cfg - Z.of_nat a))%nat in
    let r := fetchWithRetry cfg host fuel a w in
    fst r = Thrown (err last) ∧
    calls (snd r) = S last ∧
    retryCount (hook (snd r)) =
      (if Z.of_nat a <? maxRetries cfg then Z.to_nat (maxRetries cfg)
       else retryCount (hook w)) ∧
    ∃ later : list Z,
      sleeps (log (snd r)) = later ++ sleeps (log w) ∧
      later ++ timersBefore cfg a = timers cfg (Z.to_nat (maxRetries cfg)).
Proof.
  induction fuel as [|fuel IH]; intros a w Hmiss Hle Hfuel; [lia|].
  cbv zeta. rewrite fetchWithRetry_unfold, Hmiss, fails. cbv zeta.
  unfold shouldRetry. rewrite auto. cbn [andb].
  assert (Hlog : ∀ e, sleeps (log (exec (recordFailure cfg e)
                                     (requested cfg host w))) =
                      startTimer cfg ++ sleeps (log w)).
  { intros e. rewrite failed_log, requested_log. unfold startTimer.
    by destruct (onError cfg), (0 <? delay cfg). }
  destruct (Z.ltb_spec (Z.of_nat a) (maxRetries cfg)) as [Hlt|Hge].
  - set (w1 := exec (scheduleRetry cfg a) _).
    assert (Hmiss1 : truthy (cachedValue cfg w1) = false)
      by by apply cold_miss, cold_retry.
    destruct (retry_fields cfg host a (err (calls w)) w)
      as (Hhook1 & _ & Hcalls1 & _).
    fold w1 in Hhook1, Hcalls1.
    destruct (IH (a + 1)%nat w1 Hmiss1 ltac:(lia) ltac:(lia))
      as (Hout & Hcalls & Hcount & later & Hsleeps & Htimers).
    assert (Hlog1 : sleeps (log w1) =
                    retryDelay cfg a :: startTimer cfg ++ sleeps (log w)).
    { subst w1. rewrite retry_log. cbn. by rewrite Hlog. }
    rewrite Hcalls1 in Hout, Hcalls.
    replace (S (calls w) + Z.to_nat (maxRetries cfg - Z.of_nat (a + 1)))%nat
      with (calls w + Z.to_nat (maxRetries cfg - Z.of_nat a))%nat
      in Hout, Hcalls by lia.
    split; [exact Hout|]. split; [exact Hcalls|]. split.
    + rewrite Hcount.
      destruct (Z.ltb_spec (Z.of_nat (a + 1)) (maxRetries cfg)); [done|].
      rewrite Hhook1. cbn. lia.
    + exists (later ++ retryDelay cfg a :: startTimer cfg). split.
      * rewrite Hsleeps, Hlog1, <- app_assoc. by rewrite <- app_comm_cons.
      * rewrite <- Htimers, <- app_assoc. f_equal.
        replace (a + 1)%nat with (S a) by lia. cbn [timersBefore].
        by rewrite <- app_comm_cons, <- timers_eq.
  - cbn [fst snd].
    destruct (failed_fields cfg host (err (calls w)) w)
      as (Hhook & _ & Hcalls & _).
    replace (Z.to_nat (maxRetries cfg - Z.of_nat a)) with 0%nat by lia.
    rewrite Nat.add_0_r.
    split; [done|]. split; [exact Hcalls|]. split; [by rewrite Hhook|].
    exists (startTimer cfg). split; [by rewrite Hlog|].
    replace (Z.to_nat (maxRetries cfg)) with a by lia.
    by rewrite timers_eq.
Qed.

End Exhausted.

(** X4.  With [autoRetry] on and [maxRetries = m >= 0], a [refetch()] of an
    operation that fails every time, started where the cache does not
    answer, invokes it [m + 1] times and is rejected with the error of the
    last invocation; [retryCount] ends at [m] (for [m = 0] it is not
    written); and the timers set are, in order, the start delay before each
    request (when [delay > 0]) and [retryDelay(k)] between attempt [k] and
    attempt [k + 1]. *)
Theorem exhausted_retries (cfg : Config) (host : Host.t) (err : nat → value)
    (w : World) :
  autoRetry cfg = true →
  0 ≤ maxRetries cfg →
  (∀ n, Host.requestFn host n = Reject (err n)) →
  truthy (cachedValue cfg w) = false →
  let m := Z.to_nat (maxRetries cfg) in
  let w' := exec (fetch cfg host) w in
  outcome (fetch cfg host) w = Thrown (err (calls w + m)%nat) ∧
  calls w' = (calls w + m + 1)%nat ∧
  retryCount (hook w') = (if m is O then retryCount (hook w) else m) ∧
  sleeps (log w') = timers cfg m ++ sleeps (log w).
Proof.
  intros Hauto Hmax Hfails Hmiss. cbv zeta.
  unfold outcome, exec. rewrite fetch_eq.
  destruct (exhausting_run cfg host err Hauto Hfails (retryBudget cfg) 0
              (exec (setStatus Loading) w) Hmiss ltac:(lia)
              ltac:(unfold retryBudget; lia))
    as (Hout & Hcalls & Hcount & later & Hsleeps & Htimers).
  rewrite Z.sub_0_r in Hout, Hcalls.
  change (calls (exec (setStatus Loading) w)) with (calls w) in Hout, Hcalls.
  split; [exact Hout|]. split; [rewrite Hcalls; lia|]. split.
  - rewrite Hcount. change (Z.of_nat 0) with 0.
    destruct (Z.ltb_spec 0 (maxRetries cfg)) as [Hpos|Hzero].
    + destruct (Z.to_nat (maxRetries cfg)) eqn:Hm; [lia|done].
    + by replace (Z.to_nat (maxRetries cfg)) with 0%nat by lia.
  - rewrite Hsleeps. cbn [timersBefore] in Htimers.
    by rewrite app_nil_r in Htimers; subst later.
Qed.

Lemma exhausted_retries_witness :
  outcome (fetch cachedRetryU1 failsWithItsIndex) emptyWorld = Thrown (VNum 2) ∧
  calls (exec (fetch cachedRetryU1 failsWithItsIndex) emptyWorld) = 3%nat ∧
  retryCount (hook (exec (fetch cachedRetryU1 failsWithItsIndex) emptyWorld)) =
    2%nat ∧
  sleeps (log (exec (fetch cachedRetryU1 failsWithItsIndex) emptyWorld)) =
    [10; 2000; 10; 1000; 10].
Proof.
  pose proof (exhausted_retries cachedRetryU1 failsWithItsIndex
                (λ n, VNum (Z.of_nat n)) emptyWorld
                eq_refl ltac:(vm_compute; discriminate) (λ n, eq_refl) eq_refl)
    as (Hout & Hcalls & Hcount & Hsleeps).
  split; [exact Hout|]. split; [exact Hcalls|]. split; [exact Hcount|].
  exact Hsleeps.
Defined.

(** ** The callbacks *)

Lemma onSuccessCalls_cons (e : event) (l : list event) :
  onSuccessCalls (e :: l) =
    match e with
    | OnSuccess d => d :: onSuccessCalls l
    | _ => onSuccessCalls l
    end.
Proof. by destruct e. Qed.

Lemma onErrorCalls_cons (e : event) (l : list event) :
  onErrorCalls (e :: l) =
    match e with
    | OnError x => x :: onErrorCalls l
    | _ => onErrorCalls l
    end.
Proof. by destruct e. Qed.

Lemma onSuccessCalls_requested (cfg : Config) (host : Host.t) (w : World) :
  onSuccessCalls (log (requested cfg host w)) = onSuccessCalls (log w) ∧
  onErrorCalls (log (requested cfg host w)) = onErrorCalls (log w).
Proof. rewrite requested_log. by destruct (0 <? delay cfg). Qed.

(** From a miss on: [onSuccess] is called once, with the value, exactly when
    the promise resolves; [onError] once for each rejected request. *)
Lemma fetchWithRetry_callbacks (cfg : Config) (host : Host.t) (fuel : nat) :
  ∀ (a : nat) (w : World),
    let r := fetchWithRetry cfg host fuel a w in
    truthy (cachedValue cfg w) = false →
    ∃ failed : nat,
      length (onErrorCalls (log (snd r))) =
        (length (onErrorCalls (log w)) + (if onError cfg then failed else 0))%nat ∧
      match fst r with
      | Normal v =>
        calls (snd r) = (calls w + failed + 1)%nat ∧
        onSuccessCalls (log (snd r)) =
          (if onSuccess cfg then [v] else []) ++ onSuccessCalls (log w)
      | Thrown e =>
        calls (snd r) = (calls w + failed)%nat ∧
        onSuccessCalls (log (snd r)) = onSuccessCalls (log w) ∧
        (onError cfg = true → head (onErrorCalls (log (snd r))) = Some e)
      | Pending => True
      end.
Proof.
  apply (fetchWithRetry_cases cfg host
    (λ a w r,
       truthy (cachedValue cfg w) = false →
       ∃ failed : nat,
         length (onErrorCalls (log (snd r))) =
           (length (onErrorCalls (log w)) +
            (if onError cfg then failed else 0))%nat ∧
         match fst r with
         | Normal v =>
           calls (snd r) = (calls w + failed + 1)%nat ∧
           onSuccessCalls (log (snd r)) =
             (if onSuccess cfg then [v] else []) ++ onSuccessCalls (log w)
         | Thrown e =>
           calls (snd r) = (calls w + failed)%nat ∧
           onSuccessCalls (log (snd r)) = onSuccessCalls (log w) ∧
           (onError cfg = true → head (onErrorCalls (log (snd r))) = Some e)
         | Pending => True
         end)).
  - intros a w _. exists 0%nat. cbn [fst snd].
    split; [|done]. destruct (onError cfg); lia.
  - intros a w Hhit Hmiss. congruence.
  - intros a w v _ _ _. exists 0%nat. rewrite applyResult_eq.
    cbn [fst snd log calls].
    destruct (onSuccessCalls_requested cfg host w) as [Hs He].
    destruct (requested_fields cfg host w) as (_ & _ & -> & _).
    split; [|split; [lia|]].
    + destruct (onSuccess cfg), (onError cfg);
        rewrite ?onErrorCalls_cons, He; lia.
    + destruct (onSuccess cfg); by rewrite ?onSuccessCalls_cons, Hs.
  - intros a w e _ _ _ _. exists 1%nat. cbn [fst snd].
    destruct (onSuccessCalls_requested cfg host w) as [Hs He].
    destruct (failed_fields cfg host e w) as (_ & _ & -> & _).
    rewrite failed_log.
    split; [|split; [lia|split]].
    + destruct (onError cfg); cbn [app];
        rewrite ?onErrorCalls_cons, He; cbn [length]; lia.
    + destruct (onError cfg); cbn [app];
        by rewrite ?onSuccessCalls_cons, Hs.
    + intros ->. cbn [app]. by rewrite onErrorCalls_cons.
  - intros a w e r Hmiss _ _ IH _.
    destruct (IH ltac:(by apply cold_miss, cold_retry))
      as (failed & Herr & Hrest).
    destruct (onSuccessCalls_requested cfg host w) as [Hs He].
    destruct (retry_fields cfg host a e w) as (_ & _ & Hcalls & _).
    rewrite retry_log, failed_log in Herr, Hrest.
    rewrite Hcalls in Hrest.
    assert (HE : length (onErrorCalls
                   (Sleep (retryDelay cfg a)
                    :: (if onError cfg then [OnError e] else [])
                       ++ log (requested cfg host w))) =
                 (length (onErrorCalls (log w)) +
                  (if onError cfg then 1 else 0))%nat).
    { rewrite onErrorCalls_cons. destruct (onError cfg); cbn [app];
        rewrite ?onErrorCalls_cons, He; cbn [length]; lia. }
    assert (HS : onSuccessCalls
                   (Sleep (retryDelay cfg a)
                    :: (if onError cfg then [OnError e] else [])
                       ++ log (requested cfg host w)) =
                 onSuccessCalls (log w)).
    { rewrite onSuccessCalls_cons. destruct (onError cfg); cbn [app];
        by rewrite ?onSuccessCalls_cons, Hs. }
    rewrite HE in Herr. rewrite HS in Hrest.
    exists (S failed). split.
    + rewrite Herr. destruct (onError cfg); lia.
    + destruct (fst r) as [v|e'|]; [| |done].
      * destruct Hrest as [Hc Hsucc]. split; [lia|done].
      * destruct Hrest as (Hc & Hsucc & Hhead). split; [lia|]. by split.
Qed.

(** X5.  During one [refetch()], [onSuccess] (when given) is called exactly
    once, with the resolved value, if the promise resolves, and not at all if
    it is rejected; [onError] (when given) is called once for every rejected
    request, also for those that are retried, and last with the error the
    promise is rejected with.  An absent callback is never called. *)
Theorem callbacks_per_fetch (cfg : Config) (host : Host.t) (w : World) :
  let w' := exec (fetch cfg host) w in
  let requests := (calls w' - calls w)%nat in
  match outcome (fetch cfg host) w with
  | Normal v =>
    onSuccessCalls (log w') =
      (if onSuccess cfg then [v] else []) ++ onSuccessCalls (log w) ∧
    length (onErrorCalls (log w')) =
      (length (onErrorCalls (log w)) +
       (if onError cfg then requests - 1 else 0))%nat
  | Thrown e =>
    onSuccessCalls (log w') = onSuccessCalls (log w) ∧
    length (onErrorCalls (log w')) =
      (length (onErrorCalls (log w)) +
       (if onError cfg then requests else 0))%nat ∧
    (onError cfg = true → head (onErrorCalls (log w')) = Some e)
  | Pending => False
  end.
Proof.
  cbv zeta. pose proof (fetch_settles cfg host w) as Hsettles.
  destruct (truthy (cachedValue cfg w)) eqn:Hc.
  - unfold outcome, exec in *. rewrite fetch_hit_eq in * by done.
    rewrite applyCached_eq. cbn [fst snd log calls].
    destruct (afterLookup_eq cfg (exec (setStatus Loading) w)) as (f & -> & _).
    change (log (with_cache f (exec (setStatus Loading) w))) with (log w).
    change (calls (with_cache f (exec (setStatus Loading) w))) with (calls w).
    split.
    + destruct (onSuccess cfg); by rewrite ?onSuccessCalls_cons.
    + destruct (onSuccess cfg), (onError cfg);
        rewrite ?onErrorCalls_cons; lia.
  - unfold outcome, exec in *. rewrite fetch_eq in *.
    destruct (fetchWithRetry_callbacks cfg host (retryBudget cfg) 0
                (exec (setStatus Loading) w) Hc) as (failed & Herr & Hrest).
    change (calls (exec (setStatus Loading) w)) with (calls w) in Hrest.
    change (log (exec (setStatus Loading) w)) with (log w) in Herr, Hrest.
    destruct (fst _) as [v|e|]; [| |done].
    + destruct Hrest as [Hcalls Hsucc]. split; [done|].
      rewrite Herr, Hcalls. destruct (onError cfg); lia.
    + destruct Hrest as (Hcalls & Hsucc & Hhead). split; [done|]. split; [|done].
      rewrite Herr, Hcalls. destruct (onError cfg); lia.
Qed.

Lemma callbacks_per_fetch_example :
  let host := failsThenResolves 2 (VStr "boom") (VNum 7) in
  let w := exec (fetch cachedRetryU1 host) emptyWorld in
  onSuccessCalls (log w) = [VNum 7] ∧
  onErrorCalls (log w) = [VStr "boom"; VStr "boom"].
Proof. vm_compute. by split. Qed.

(** ** What observers see of [status] during a fetch *)

Lemma frames_requested (cfg : Config) (host : Host.t) (w : World) :
  frames (requested cfg host w) =
    replicate (suspensionsPerAttempt cfg) (hook w) ++ frames w.
Proof.
  rewrite requested_eq. cbv zeta. unfold suspensionsPerAttempt. cbn.
  by destruct (0 <? delay cfg).
Qed.

(** From a miss on: the frames of the first attempt show the hook as the
    call found it; each retry taken adds the frame of its back-off and the
    frames of its attempt, and all of these show error. *)
Lemma fetchWithRetry_status (cfg : Config) (host : Host.t) (fuel : nat) :
  ∀ (a : nat) (w : World),
    let r := fetchWithRetry cfg host fuel a w in
    truthy (cachedValue cfg w) = false →
    fst r ≠ Pending →
    ∃ (later : list HookState) (retries : nat),
      frames (snd r) =
        later ++ replicate (suspensionsPerAttempt cfg) (hook w) ++ frames w ∧
      Forall (λ h, status h = Error ∧ isFetched h = true) later ∧
      length later = (retries * (1 + suspensionsPerAttempt cfg))%nat ∧
      calls (snd r) = S (calls w + retries).
Proof.
  apply (fetchWithRetry_cases cfg host
    (λ a w r,
       truthy (cachedValue cfg w) = false →
       fst r ≠ Pending →
       ∃ (later : list HookState) (retries : nat),
         frames (snd r) =
           later ++ replicate (suspensionsPerAttempt cfg) (hook w)
           ++ frames w ∧
         Forall (λ h, status h = Error ∧ isFetched h = true) later ∧
         length later = (retries * (1 + suspensionsPerAttempt cfg))%nat ∧
         calls (snd r) = S (calls w + retries))).
  - done.
  - intros a w Hhit Hmiss. congruence.
  - intros a w v _ _ _ _. rewrite applyResult_eq. cbn [snd frames calls].
    destruct (requested_fields cfg host w) as (_ & _ & -> & _).
    exists [], 0%nat. rewrite frames_requested.
    split; [done|]. split; [done|]. split; [done|]. lia.
  - intros a w e _ _ _ _ _. cbn [snd].
    destruct (failed_fields cfg host e w) as (_ & _ & -> & -> & _).
    exists [], 0%nat. rewrite frames_requested.
    split; [done|]. split; [done|]. split; [done|]. lia.
  - intros a w e r Hmiss _ _ IH _ Hsettled.
    destruct (IH ltac:(by apply cold_miss, cold_retry) Hsettled)
      as (later1 & retries1 & Hfr & Hall & Hlen & Hcalls).
    destruct (retry_fields cfg host a e w)
      as (Hhook & _ & Hcalls1 & Hframes & _).
    set (w1 := exec (scheduleRetry cfg a) _) in *.
    assert (Herr : status (hook w1) = Error ∧ isFetched (hook w1) = true)
      by by rewrite Hhook.
    exists (later1 ++ replicate (suspensionsPerAttempt cfg) (hook w1)
            ++ [hook w1]), (S retries1).
    split; [|split; [|split]].
    + rewrite Hfr, Hframes, frames_requested, <- !app_assoc. done.
    + apply Forall_app. split; [done|]. apply Forall_app. split.
      * by apply Forall_replicate.
      * by constructor.
    + rewrite !length_app, length_replicate, Hlen. cbn [length]. lia.
    + rewrite Hcalls, Hcalls1. lia.
Qed.

(** X6.  While one [refetch()] that misses the cache is suspended, the
    component sees [status] loading exactly in the frames of the first
    attempt (its start delay, when there is one, and its request).  Every
    later frame, that is the back-off, the start delay and the request of
    every retry, shows [status] error with [isFetched] set and [loading]
    false; there are as many of them as retries were taken times the frames
    of one back-off and one attempt.  A [refetch()] answered by the cache
    is never suspended. *)
Theorem status_in_flight (cfg : Config) (host : Host.t) (w : World) :
  let w' := exec (fetch cfg host) w in
  let loadingHook := hook (exec (setStatus Loading) w) in
  let n := suspensionsPerAttempt cfg in
  if truthy (cachedValue cfg w) then frames w' = frames w
  else
    ∃ later : list HookState,
      frames w' = later ++ replicate n loadingHook ++ frames w ∧
      status loadingHook = Loading ∧
      Result.loading (returned loadingHook) = true ∧
      Forall (λ h, status h = Error ∧ isFetched h = true ∧
                   Result.loading (returned h) = false) later ∧
      length later = ((calls w' - calls w - 1) * (1 + n))%nat.
Proof.
  cbv zeta. destruct (truthy (cachedValue cfg w)) eqn:Hc.
  - unfold exec at 1. rewrite fetch_hit_eq by done. rewrite applyCached_eq.
    by destruct (afterLookup_eq cfg (exec (setStatus Loading) w))
      as (f & -> & _).
  - pose proof (fetch_settles cfg host w) as Hsettles.
    unfold outcome in Hsettles. rewrite fetch_eq in Hsettles.
    destruct (fetchWithRetry_status cfg host (retryBudget cfg) 0
                (exec (setStatus Loading) w) Hc Hsettles)
      as (later & retries & Hfr & Hall & Hlen & Hcalls).
    assert (Hexec : exec (fetch cfg host) w =
                    snd (fetchWithRetry cfg host (retryBudget cfg) 0
                           (exec (setStatus Loading) w)))
      by (unfold exec at 1; by rewrite fetch_eq).
    rewrite Hexec.
    exists later. split; [exact Hfr|]. split; [done|]. split; [done|]. split.
    + eapply Forall_impl; [exact Hall|]. intros h [Hs Hf].
      unfold returned, loading. cbn. by rewrite Hs.
    + rewrite Hlen, Hcalls.
      change (calls (exec (setStatus Loading) w)) with (calls w).
      f_equal. lia.
Qed.

Lemma status_in_flight_example :
  let w := exec (fetch cachedRetryU1
                   (failsThenResolves 2 (VStr "boom") (VNum 7))) emptyWorld in
  map status (frames w) =
    [Error; Error; Error; Error; Error; Error; Loading; Loading].
Proof. vm_compute. reflexivity. Qed.

(** ** [isFetched] and [error] across a fetch *)

Lemma fetchWithRetry_isFetched (cfg : Config) (host : Host.t) (fuel : nat) :
  ∀ (a : nat) (w : World),
    let w' := snd (fetchWithRetry cfg host fuel a w) in
    (isFetched (hook w) = true → isFetched (hook w') = true) ∧
    ((calls w < calls w')%nat → isFetched (hook w') = true).
Proof.
  apply (fetchWithRetry_cases cfg host
    (λ a w r,
       (isFetched (hook w) = true → isFetched (hook (snd r)) = true) ∧
       ((calls w < calls (snd r))%nat → isFetched (hook (snd r)) = true))).
  - intros a w. cbn. split; [done|lia].
  - intros a w _. rewrite applyCached_eq.
    destruct (afterLookup_eq cfg w) as (f & -> & _). cbn. split; [done|lia].
  - intros a w v _ _. by rewrite applyResult_eq.
  - intros a w e _ _ _. cbn [snd].
    by destruct (failed_fields cfg host e w) as (-> & _).
  - intros a w e r _ _ _ [IH _].
    destruct (retry_fields cfg host a e w) as (Hhook & _).
    rewrite Hhook in IH. split; intros _; by apply IH.
Qed.

(** X7.  A [refetch()] never clears [isFetched], and sets it whenever the
    operation was invoked, whether the promise resolves or not.  (Only
    [reset()] clears it.) *)
Theorem isFetched_after_fetch (cfg : Config) (host : Host.t) (w : World) :
  let w' := exec (fetch cfg host) w in
  (isFetched (hook w) = true → isFetched (hook w') = true) ∧
  ((calls w < calls w')%nat → isFetched (hook w') = true) ∧
  isFetched (hook (exec (reset cfg) w')) = false.
Proof.
  cbv zeta. unfold exec at 1 2 3. rewrite fetch_eq.
  destruct (fetchWithRetry_isFetched cfg host (retryBudget cfg) 0
              (exec (setStatus Loading) w)) as [Hkeep Hset].
  by repeat split.
Qed.

(** X8.  A [refetch()] whose first attempt succeeds (answered by the cache,
    or the first request resolves) does not touch [error]: an error left by
    an earlier failure stays visible beside the new [data] and [status]
    success. *)
Theorem success_keeps_old_error (cfg : Config) (host : Host.t) (w : World) :
  truthy (cachedValue cfg w) = true ∨
  (∃ v, Host.requestFn host (calls w) = Resolve v) →
  let w' := exec (fetch cfg host) w in
  error (hook w') = error (hook w) ∧
  status (hook w') = Success ∧
  ∃ v, outcome (fetch cfg host) w = Normal v ∧ data (hook w') = v.
Proof.
  intros Hfirst. cbv zeta. unfold outcome, exec.
  destruct (truthy (cachedValue cfg w)) eqn:Hc.
  - rewrite fetch_hit_eq by done. rewrite applyCached_eq.
    destruct (afterLookup_eq cfg (exec (setStatus Loading) w)) as (f & -> & _).
    cbn. repeat split; try done. by eexists.
  - destruct Hfirst as [|[v Hv]]; [done|].
    rewrite fetch_eq. unfold retryBudget. rewrite fetchWithRetry_unfold.
    change (cachedValue cfg (exec (setStatus Loading) w))
      with (cachedValue cfg w).
    change (calls (exec (setStatus Loading) w)) with (calls w).
    rewrite Hc, Hv, applyResult_eq. cbn [fst snd hook error status data].
    destruct (requested_fields cfg host (exec (setStatus Loading) w))
      as (-> & _).
    repeat split; try done. by eexists.
Qed.

Lemma success_keeps_old_error_witness :
  error (hook afterThreeFailures) = VStr "boom" ∧
  error (hook (exec (fetch retryTwice (resolvesWith (VNum 7)))
                 afterThreeFailures)) = VStr "boom" ∧
  status (hook (exec (fetch retryTwice (resolvesWith (VNum 7)))
                  afterThreeFailures)) = Success.
Proof.
  pose proof (success_keeps_old_error retryTwice (resolvesWith (VNum 7))
                afterThreeFailures
                (or_intror (ex_intro _ (VNum 7) eq_refl)))
    as (Herror & Hstatus & _).
  split; [reflexivity|]. split; [exact Herror|exact Hstatus].
Defined.

(** ** The store *)

(** A second lookup at the same time finds what the first left. *)
Lemma cachedValue_afterLookup (cfg : Config) (w : World) :
  cachedValue cfg (afterLookup cfg w) = cachedValue cfg w ∧
  afterLookup cfg (afterLookup cfg w) = afterLookup cfg w.
Proof.
  unfold cachedValue, afterLookup.
  destruct (cacheSlot cfg) as [key|]; [|done].
  destruct (cache w !! key) as [item|] eqn:Hitem.
  - destruct (_ >? _) eqn:Hexp.
    + cbn. by rewrite lookup_delete_eq.
    + by rewrite Hitem, Hexp.
  - by rewrite Hitem.
Qed.

(** X9.  For an instance whose key is an ordinary one (see
    [specialKeys]), [getCachedData()] is idempotent: a second lookup at the
    same time returns what the first returned and changes nothing more (an
    expired entry is evicted once). *)
Theorem getCachedData_idempotent (cfg : Config) (w : World) :
  (∀ key, cacheSlot cfg = Some key → ordinaryKey key = true) →
  let w1 := exec (getCachedData cfg) w in
  outcome (getCachedData cfg) w1 = outcome (getCachedData cfg) w ∧
  exec (getCachedData cfg) w1 = w1.
Proof.
  intros _. cbv zeta. unfold outcome, exec. rewrite !getCachedData_eq.
  cbn [fst snd].
  destruct (cachedValue_afterLookup cfg w) as [-> ->]. done.
Qed.

Lemma getCachedData_idempotent_witness :
  outcome (getCachedData cachedU1) (at_time 2000 warmWorld) = Normal VNull ∧
  outcome (getCachedData cachedU1)
    (exec (getCachedData cachedU1) (at_time 2000 warmWorld)) = Normal VNull ∧
  cache (exec (getCachedData cachedU1) (at_time 2000 warmWorld)) = ∅.
Proof.
  assert (Hordinary : ∀ key, cacheSlot cachedU1 = Some key →
                             ordinaryKey key = true).
  { intros key [= <-]. reflexivity. }
  pose proof (getCachedData_idempotent cachedU1 (at_time 2000 warmWorld)
                Hordinary) as [Hout _].
  split; [reflexivity|]. split; [|reflexivity].
  rewrite Hout. reflexivity.
Defined.

Lemma afterLookup_other (cfg : Config) (w : World) (k : string) :
  cacheSlot cfg ≠ Some k →
  cache (afterLookup cfg w) !! k = cache w !! k.
Proof.
  intros Hk. rewrite cache_afterLookup.
  destruct (cacheSlot cfg) as [key|]; [|done].
  destruct (cache w !! key); [|done].
  destruct (_ >? _); [|done].
  apply lookup_delete_ne. congruence.
Qed.

Lemma setData_other (cfg : Config) (v : value) (w : World) (k : string) :
  cacheSlot cfg ≠ Some k →
  cache (exec (setData cfg v) w) !! k = cache w !! k.
Proof.
  intros Hk. unfold exec. rewrite setData_eq. cbn.
  destruct (cacheSlot cfg) as [key|]; [|done].
  destruct (truthy v); [|done].
  apply lookup_insert_ne. congruence.
Qed.

Lemma fetchWithRetry_other (cfg : Config) (host : Host.t) (k : string)
    (fuel : nat) :
  cacheSlot cfg ≠ Some k →
  ∀ (a : nat) (w : World),
    cache (snd (fetchWithRetry cfg host fuel a w)) !! k = cache w !! k.
Proof.
  intros Hk.
  apply (fetchWithRetry_cases cfg host
           (λ a w r, cache (snd r) !! k = cache w !! k)).
  - done.
  - intros a w _. rewrite applyCached_eq. cbn [snd cache].
    by rewrite setData_other, afterLookup_other.
  - intros a w v _ _. rewrite applyResult_eq. cbn [snd cache].
    destruct (requested_fields cfg host w) as (_ & -> & _).
    pose proof (afterLookup_other cfg w k Hk) as Hlook.
    destruct (cacheSlot cfg) as [key|]; [|done].
    by rewrite lookup_insert_ne by congruence.
  - intros a w e _ _ _. cbn [snd].
    destruct (failed_fields cfg host e w) as (_ & -> & _).
    by apply afterLookup_other.
  - intros a w e r _ _ _ ->.
    destruct (retry_fields cfg host a e w) as (_ & -> & _).
    by apply afterLookup_other.
Qed.

(** X10.  A hook instance whose key is not ["__proto__"] touches the
    shared store only under its own key: mounting, [refetch()], [setData]
    and [reset] leave the entry of every other key (and, for an instance
    that does not cache, of every key) as it was. *)
Theorem other_keys_untouched (cfg : Config) (host : Host.t) (v : value)
    (k : string) (w : World) :
  cacheSlot cfg ≠ Some "__proto__"%string →
  cacheSlot cfg ≠ Some k →
  cache (exec (mount cfg host) w) !! k = cache w !! k ∧
  cache (exec (fetch cfg host) w) !! k = cache w !! k ∧
  cache (exec (setData cfg v) w) !! k = cache w !! k ∧
  cache (exec (reset cfg) w) !! k = cache w !! k.
Proof.
  intros _ Hk.
  assert (Hfetch : ∀ w0, cache (exec (fetch cfg host) w0) !! k = cache w0 !! k).
  { intros w0. unfold exec. rewrite fetch_eq.
    by rewrite fetchWithRetry_other. }
  split; [|split; [apply Hfetch|split; [by apply setData_other|done]]].
  unfold exec at 1. rewrite mount_eq, autoExecute_eq.
  assert (Hrender : cache (exec (firstRender cfg) w) !! k = cache w !! k).
  { unfold exec. rewrite firstRender_eq. cbn. by apply afterLookup_other. }
  destruct (manual cfg); cbn [snd]; [done|]. by rewrite Hfetch.
Qed.

Lemma other_keys_untouched_witness :
  cache (exec (fetch cachedU2 (resolvesWith (VNum 7))) warmWorld)
    !! "u1"%string =
    Some {| CacheItem.data := VNum 5; CacheItem.timestamp := 0 |} ∧
  cache (exec (fetch cachedU2 (resolvesWith (VNum 7))) warmWorld)
    !! "u2"%string =
    Some {| CacheItem.data := VNum 7; CacheItem.timestamp := 5 |}.
Proof.
  pose proof (other_keys_untouched cachedU2 (resolvesWith (VNum 7))
                VNull "u1" warmWorld
                ltac:(vm_compute; discriminate) ltac:(vm_compute; discriminate))
    as (_ & Hfetch & _).
  split; [|reflexivity].
  rewrite Hfetch. reflexivity.
Defined.

(** X11.  With [cache] off, no [cacheKey], or the empty string as
    [cacheKey], the hook does not cache: the first render takes
    [initialData], [setData] and [refetch()] leave the store as it is, and
    every [refetch()] invokes the operation. *)
Theorem no_caching_without_key (cfg : Config) (host : Host.t) (v : value)
    (w : World) :
  shouldCache cfg = false ∨ cacheKey cfg = None ∨ cacheKey cfg = Some ""%string →
  data (hook (exec (firstRender cfg) w)) = initialData cfg ∧
  cache (exec (setData cfg v) w) = cache w ∧
  cache (exec (fetch cfg host) w) = cache w ∧
  (calls w < calls (exec (fetch cfg host) w))%nat.
Proof.
  intros Hoff.
  assert (Hslot : cacheSlot cfg = None).
  { unfold cacheSlot. destruct Hoff as [-> | [-> | ->]]; [done| |];
      by destruct (shouldCache cfg). }
  assert (Hmiss : ∀ w0, cachedValue cfg w0 = VNull).
  { intros w0. unfold cachedValue. by rewrite Hslot. }
  assert (Hk : ∀ k, cacheSlot cfg ≠ Some k) by (intros k; by rewrite Hslot).
  split; [|split; [|split]].
  - unfold exec. rewrite firstRender_eq. cbn. by rewrite Hmiss.
  - apply map_eq. intros k. by apply setData_other.
  - apply map_eq. intros k. unfold exec. rewrite fetch_eq.
    by rewrite fetchWithRetry_other.
  - unfold exec. rewrite fetch_eq.
    change (calls w) with (calls (exec (setStatus Loading) w)).
    apply (miss_invokes cfg host). by rewrite Hmiss.
Qed.

Lemma no_caching_without_key_witness :
  cache (exec (fetch cachedEmptyKey (resolvesWith (VNum 7))) emptyWorld) = ∅ ∧
  calls (exec (fetch cachedEmptyKey (resolvesWith (VNum 7)))
           (exec (fetch cachedEmptyKey (resolvesWith (VNum 7))) emptyWorld)) =
    2%nat.
Proof.
  pose proof (no_caching_without_key cachedEmptyKey (resolvesWith (VNum 7))
                VNull emptyWorld (or_intror (or_intror eq_refl)))
    as (_ & _ & Hcache & _).
  split; [exact Hcache | reflexivity].
Defined.

(** A hit leaves the store as the lookup found it. *)
Lemma hit_entry (cfg : Config) (w : World) :
  truthy (cachedValue cfg w) = true →
  afterLookup cfg w = w ∧
  ∃ key item,
    cacheSlot cfg = Some key ∧ cache w !! key = Some item ∧
    CacheItem.data item = cachedValue cfg w ∧
    now w - CacheItem.timestamp item ≤ cacheTTL cfg.
Proof.
  unfold cachedValue, afterLookup.
  destruct (cacheSlot cfg) as [key|]; [|done].
  destruct (cache w !! key) as [item|] eqn:Hitem; [|done].
  destruct (Z.gtb_spec (now w - CacheItem.timestamp item) (cacheTTL cfg))
    as [|Hfresh]; [done|].
  intros _. split; [done|]. by exists key, item.
Qed.

(** What a fetch answered by the cache does. *)
Lemma fetch_hit_fields (cfg : Config) (host : Host.t) (w : World) :
  truthy (cachedValue cfg w) = true →
  fetch cfg host w =
    (Normal (cachedValue cfg w),
     {| hook :=
          {| data := cachedValue cfg w; status := Success;
             error := error (hook w); retryCount := retryCount (hook w);
             isFetched := isFetched (hook w) |};
        cache :=
          match cacheSlot cfg with
          | Some key =>
            <[key := {| CacheItem.data := cachedValue cfg w;
                        CacheItem.timestamp := now w |}]> (cache w)
          | None => cache w
          end;
        now := now w; calls := calls w;
        log := if onSuccess cfg
               then OnSuccess (cachedValue cfg w) :: log w else log w;
        frames := frames w |}).
Proof.
  intros Hhit. rewrite fetch_hit_eq by done.
  assert (Hhit0 : truthy (cachedValue cfg (exec (setStatus Loading) w)) = true)
    by done.
  destruct (hit_entry cfg _ Hhit0) as [-> _].
  rewrite applyCached_eq. unfold exec. rewrite setData_eq. cbn.
  by rewrite Hhit.
Qed.

(** X12.  A [refetch()] answered by the cache stores the value again with
    the time of the hit: the entry's lifetime starts anew, and a lookup up
    to [cacheTTL] later than the hit is a hit again, however old the
    original entry was. *)
Theorem cache_hit_restamps (cfg : Config) (host : Host.t) (key : string)
    (w : World) (t : Z) :
  cacheSlot cfg = Some key →
  truthy (cachedValue cfg w) = true →
  let w' := exec (fetch cfg host) w in
  cache w' =
    <[key := {| CacheItem.data := cachedValue cfg w;
                CacheItem.timestamp := now w |}]> (cache w) ∧
  (t - now w ≤ cacheTTL cfg →
     cachedValue cfg (at_time t w') = cachedValue cfg w).
Proof.
  intros Hslot Hhit. cbv zeta. unfold exec.
  rewrite fetch_hit_fields by done. cbn [snd cache]. rewrite Hslot.
  split; [done|]. intros Hfresh.
  unfold cachedValue at 1. rewrite Hslot. cbn.
  rewrite lookup_insert_eq. cbn.
  by replace (t - now w >? cacheTTL cfg) with false by lia.
Qed.

Lemma cache_hit_restamps_witness :
  let hit := exec (fetch cachedU1 (resolvesWith (VNum 9)))
               (at_time 900 warmWorld) in
  cache hit !! "u1"%string =
    Some {| CacheItem.data := VNum 5; CacheItem.timestamp := 900 |} ∧
  cachedValue cachedU1 (at_time 1900 hit) = VNum 5 ∧
  cachedValue cachedU1 (at_time 1900 warmWorld) = VNull.
Proof.
  pose proof (cache_hit_restamps cachedU1 (resolvesWith (VNum 9)) "u1"
                (at_time 900 warmWorld) 1900 eq_refl eq_refl)
    as [Hcache Hlater].
  cbv zeta. split; [|split].
  - rewrite Hcache. reflexivity.
  - apply Hlater. vm_compute. discriminate.
  - reflexivity.
Defined.

(** From a miss on, a promise that resolves has stored its value under the
    key, with the time of the settlement. *)
Lemma resolved_entry (cfg : Config) (host : Host.t) (key : string)
    (fuel : nat) :
  cacheSlot cfg = Some key →
  ∀ (a : nat) (w : World),
    let r := fetchWithRetry cfg host fuel a w in
    truthy (cachedValue cfg w) = false →
    ∀ v, fst r = Normal v →
      cache (snd r) !! key =
        Some {| CacheItem.data := v; CacheItem.timestamp := now (snd r) |}.
Proof.
  intros Hslot.
  apply (fetchWithRetry_cases cfg host
    (λ a w r,
       truthy (cachedValue cfg w) = false →
       ∀ v, fst r = Normal v →
         cache (snd r) !! key =
           Some {| CacheItem.data := v;
                   CacheItem.timestamp := now (snd r) |})).
  - done.
  - intros a w Hhit Hmiss. congruence.
  - intros a w v _ _ _ v'. rewrite applyResult_eq, Hslot. cbn.
    intros [= <-]. apply lookup_insert_eq.
  - done.
  - intros a w e r Hmiss _ _ IH _. apply IH.
    by apply cold_miss, cold_retry.
Qed.

(** X13.  A truthy result fetched by one instance is served to every
    instance that caches under the same key: after a [refetch()] of
    instance A has resolved with [v] from the operation, a [refetch()] of
    instance B, started no later than B's [cacheTTL] after A's promise
    settled, resolves with [v] without invoking B's operation. *)
Theorem result_shared_through_cache (cfgA cfgB : Config) (hostA hostB : Host.t)
    (key : string) (v : value) (w : World) (hB : HookState) (t : Z) :
  cacheSlot cfgA = Some key →
  cacheSlot cfgB = Some key →
  truthy (cachedValue cfgA w) = false →
  outcome (fetch cfgA hostA) w = Normal v →
  truthy v = true →
  let wA := exec (fetch cfgA hostA) w in
  t - now wA ≤ cacheTTL cfgB →
  let wB := seenBy hB (at_time t wA) in
  outcome (fetch cfgB hostB) wB = Normal v ∧
  calls (exec (fetch cfgB hostB) wB) = calls wA ∧
  data (hook (exec (fetch cfgB hostB) wB)) = v ∧
  status (hook (exec (fetch cfgB hostB) wB)) = Success.
Proof.
  intros HslotA HslotB Hmiss Hout Htruthy wA Hfresh wB.
  assert (Hentry : cache wA !! key =
                   Some {| CacheItem.data := v; CacheItem.timestamp := now wA |}).
  { subst wA. unfold outcome, exec in *. rewrite fetch_eq in *.
    by apply (resolved_entry cfgA hostA key (retryBudget cfgA) HslotA 0
                (exec (setStatus Loading) w)). }
  assert (Hvalue : cachedValue cfgB wB = v).
  { unfold cachedValue. rewrite HslotB. subst wB. cbn. rewrite Hentry. cbn.
    by replace (t - now wA >? cacheTTL cfgB) with false by lia. }
  assert (Hhit : truthy (cachedValue cfgB wB) = true) by by rewrite Hvalue.
  unfold outcome, exec. rewrite fetch_hit_fields by done.
  rewrite Hvalue. by repeat split.
Qed.

Lemma result_shared_through_cache_witness :
  let wA := exec (fetch autoCachedU1 (resolvesWith (VNum 7))) emptyWorld in
  let wB := seenBy freshHook (at_time 1000 wA) in
  now wA = 5 ∧
  outcome (fetch cachedU1 (failsWith (VStr "boom"))) wB = Normal (VNum 7) ∧
  calls (exec (fetch cachedU1 (failsWith (VStr "boom"))) wB) = 1%nat.
Proof.
  pose proof (result_shared_through_cache autoCachedU1 cachedU1
                (resolvesWith (VNum 7)) (failsWith (VStr "boom")) "u1"
                (VNum 7) emptyWorld freshHook 1000
                eq_refl eq_refl eq_refl eq_refl eq_refl
                ltac:(vm_compute; discriminate))
    as (Hout & Hcalls & _).
  cbv zeta. split; [reflexivity|]. split; [exact Hout|exact Hcalls].
Defined.

(** The lookup does not depend on the five cells. *)
Lemma fetch_hit_any_hook (cfg : Config) (host : Host.t) (w : World)
    (f : HookState → HookState) :
  truthy (cachedValue cfg w) = true →
  outcome (fetch cfg host) (with_hook f w) = Normal (cachedValue cfg w) ∧
  calls (exec (fetch cfg host) (with_hook f w)) = calls w ∧
  data (hook (exec (fetch cfg host) (with_hook f w))) = cachedValue cfg w.
Proof.
  intros Hhit.
  assert (Hvalue : cachedValue cfg (with_hook f w) = cachedValue cfg w) by done.
  unfold outcome, exec. rewrite fetch_hit_fields by by rewrite Hvalue.
  by rewrite Hvalue.
Qed.

(** X14.  Neither [reset()] nor [setData(null)] invalidates the cache:
    after either, [data] is cleared, but a [refetch()] at the same time is
    still answered by the cache, brings the cached value back and does not
    invoke the operation. *)
Theorem clearing_keeps_cache (cfg : Config) (host : Host.t) (w : World) :
  truthy (cachedValue cfg w) = true →
  let afterReset := exec (reset cfg) w in
  let afterNull := exec (setData cfg VNull) w in
  data (hook afterReset) = initialData cfg ∧
  data (hook afterNull) = VNull ∧
  cache afterReset = cache w ∧
  cache afterNull = cache w ∧
  outcome (fetch cfg host) afterReset = Normal (cachedValue cfg w) ∧
  outcome (fetch cfg host) afterNull = Normal (cachedValue cfg w) ∧
  calls (exec (fetch cfg host) afterReset) = calls w ∧
  calls (exec (fetch cfg host) afterNull) = calls w ∧
  data (hook (exec (fetch cfg host) afterReset)) = cachedValue cfg w ∧
  data (hook (exec (fetch cfg host) afterNull)) = cachedValue cfg w.
Proof.
  intros Hhit afterReset afterNull.
  assert (Hreset : afterReset =
                   with_hook (λ _, {| data := initialData cfg; status := Idle;
                                      error := VNull; retryCount := 0;
                                      isFetched := false |}) w) by done.
  assert (Hnull : afterNull =
                  with_hook (λ h, {| data := VNull; status := status h;
                                     error := error h;
                                     retryCount := retryCount h;
                                     isFetched := isFetched h |}) w).
  { subst afterNull. unfold exec. rewrite setData_eq. cbn.
    by destruct (cacheSlot cfg). }
  rewrite Hreset, Hnull.
  destruct (fetch_hit_any_hook cfg host w
              (λ _, {| data := initialData cfg; status := Idle;
                       error := VNull; retryCount := 0;
                       isFetched := false |}) Hhit) as (Ho1 & Hc1 & Hd1).
  destruct (fetch_hit_any_hook cfg host w
              (λ h, {| data := VNull; status := status h; error := error h;
                       retryCount := retryCount h;
                       isFetched := isFetched h |}) Hhit) as (Ho2 & Hc2 & Hd2).
  by repeat split.
Qed.

Lemma clearing_keeps_cache_witness :
  data (hook (exec (reset cachedRetryU1) failedThenSet)) = VNum 42 ∧
  outcome (fetch cachedRetryU1 (failsWith (VStr "boom")))
    (exec (reset cachedRetryU1) failedThenSet) = Normal (VNum 5) ∧
  calls (exec (fetch cachedRetryU1 (failsWith (VStr "boom")))
           (exec (reset cachedRetryU1) failedThenSet)) = 3%nat.
Proof.
  pose proof (clearing_keeps_cache cachedRetryU1 (failsWith (VStr "boom"))
                failedThenSet eq_refl)
    as (Hdata & _ & _ & _ & Hout & _ & Hcalls & _).
  split; [exact Hdata|]. split; [exact Hout|exact Hcalls].
Defined.

(** X15.  Mounting where the cache answers: the first render already shows
    the cached value as [data]; the operation is not invoked; a manual hook
    stays idle, an automatic one ends in success; [isFetched] stays
    false. *)
Theorem mount_with_warm_cache (cfg : Config) (host : Host.t) (w : World) :
  truthy (cachedValue cfg w) = true →
  let w' := exec (mount cfg host) w in
  data (hook (exec (firstRender cfg) w)) = cachedValue cfg w ∧
  data (hook w') = cachedValue cfg w ∧
  status (hook w') = (if manual cfg then Idle else Success) ∧
  isFetched (hook w') = false ∧
  calls w' = calls w.
Proof.
  intros Hhit. cbv zeta.
  destruct (hit_entry cfg w Hhit) as [Hlook _].
  assert (Hrender : exec (firstRender cfg) w =
                    with_hook
                      (λ _, {| data := cachedValue cfg w;
                               status := if manual cfg then Idle else Loading;
                               error := VNull; retryCount := 0;
                               isFetched := false |}) w).
  { unfold exec. rewrite firstRender_eq, Hlook. cbn. unfold js_or.
    by rewrite Hhit. }
  split; [by rewrite Hrender|].
  unfold exec at 1 2 3 4. rewrite mount_eq, autoExecute_eq, Hrender.
  destruct (manual cfg); [done|].
  cbn [snd]. unfold exec. rewrite fetch_hit_fields by done. done.
Qed.

Lemma mount_with_warm_cache_witness :
  data (hook (exec (mount autoCachedU1 (failsWith (VStr "boom"))) warmWorld)) =
    VNum 5 ∧
  status (hook (exec (mount autoCachedU1 (failsWith (VStr "boom"))) warmWorld)) =
    Success ∧
  calls (exec (mount autoCachedU1 (failsWith (VStr "boom"))) warmWorld) = 0%nat.
Proof.
  pose proof (mount_with_warm_cache autoCachedU1 (failsWith (VStr "boom"))
                warmWorld eq_refl)
    as (_ & Hdata & Hstatus & _ & Hcalls).
  split; [exact Hdata|]. split; [exact Hstatus|exact Hcalls].
Defined.

(** X16.  [setData(v)] with a truthy [v] primes the cache: a [refetch()]
    started no later than [cacheTTL] after it resolves with [v] and does
    not invoke the operation. *)
Theorem setData_primes_cache (cfg : Config) (host : Host.t) (key : string)
    (v : value) (w : World) (t : Z) :
  cacheSlot cfg = Some key →
  truthy v = true →
  t - now w ≤ cacheTTL cfg →
  let w1 := at_time t (exec (setData cfg v) w) in
  outcome (fetch cfg host) w1 = Normal v ∧
  calls (exec (fetch cfg host) w1) = calls w ∧
  data (hook (exec (fetch cfg host) w1)) = v.
Proof.
  intros Hslot Htruthy Hfresh w1.
  assert (Hvalue : cachedValue cfg w1 = v).
  { unfold cachedValue. rewrite Hslot. subst w1. unfold exec.
    rewrite setData_eq. cbn. rewrite Hslot, Htruthy, lookup_insert_eq. cbn.
    by replace (t - now w >? cacheTTL cfg) with false by lia. }
  assert (Hhit : truthy (cachedValue cfg w1) = true) by by rewrite Hvalue.
  unfold outcome, exec. rewrite fetch_hit_fields by done. rewrite Hvalue.
  subst w1. unfold exec. by rewrite setData_eq.
Qed.

Lemma setData_primes_cache_witness :
  outcome (fetch cachedU1 (failsWith (VStr "boom")))
    (at_time 1000 (exec (setData cachedU1 (VNum 5)) emptyWorld)) =
    Normal (VNum 5) ∧
  calls (exec (fetch cachedU1 (failsWith (VStr "boom")))
           (at_time 1000 (exec (setData cachedU1 (VNum 5)) emptyWorld))) =
    0%nat.
Proof.
  pose proof (setData_primes_cache cachedU1 (failsWith (VStr "boom")) "u1"
                (VNum 5) emptyWorld 1000 eq_refl eq_refl
                ltac:(vm_compute; discriminate))
    as (Hout & Hcalls & _).
  split; [exact Hout|exact Hcalls].
Defined.




(** A rejected run writes nothing to the store; its lookups may evict. *)
Lemma rejected_store (cfg : Config) (host : Host.t) (fuel : nat) :
  ∀ (a : nat) (w : World),
    let r := fetchWithRetry cfg host fuel a w in
    ∀ e, fst r = Thrown e →
      cache (snd r) = cache w ∨
      ∃ key, cacheSlot cfg = Some key ∧ cache (snd r) = delete key (cache w).
Proof.
  assert (Hlook : ∀ w,
    cache (afterLookup cfg w) = cache w ∨
    ∃ key, cacheSlot cfg = Some key ∧
           cache (afterLookup cfg w) = delete key (cache w)).
  { intros w. destruct (afterLookup_eq cfg w) as (f & -> & [-> | (key & Hk & ->)]).
    - by left.
    - right. by exists key. }
  apply (fetchWithRetry_cases cfg host
    (λ a w r,
       ∀ e, fst r = Thrown e →
         cache (snd r) = cache w ∨
         ∃ key, cacheSlot cfg = Some key ∧
                cache (snd r) = delete key (cache w))).
  - done.
  - intros a w _ e. by rewrite applyCached_eq.
  - intros a w v _ _ e. by rewrite applyResult_eq.
  - intros a w e _ _ _ e' _. cbn [snd].
    destruct (failed_fields cfg host e w) as (_ & -> & _). apply Hlook.
  - intros a w e r _ _ _ IH e' Hr.
    destruct (retry_fields cfg host a e w) as (_ & Hcache & _).
    specialize (IH e' Hr). rewrite Hcache in IH.
    destruct (Hlook w) as [Hsame | (key & Hk & Hdel)].
    + by rewrite Hsame in IH.
    + right. exists key. split; [done|].
      destruct IH as [-> | (key' & Hk' & ->)]; [done|].
      rewrite Hk in Hk'. injection Hk' as <-.
      rewrite Hdel. apply map_eq. intros k.
      destruct (decide (k = key)) as [->|Hne].
      * by rewrite !lookup_delete_eq.
      * by rewrite !lookup_delete_ne.
Qed.

(** X18.  A [refetch()] that is rejected writes nothing to the store: the
    store is as before, or the entry under this instance's key has been
    evicted by a lookup; every other entry is unchanged, and no entry is
    added or altered. *)
Theorem rejected_fetch_writes_nothing (cfg : Config) (host : Host.t)
    (w : World) (e : value) :
  outcome (fetch cfg host) w = Thrown e →
  let w' := exec (fetch cfg host) w in
  (cache w' = cache w ∨
   ∃ key, cacheSlot cfg = Some key ∧ cache w' = delete key (cache w)) ∧
  cache w' ⊆ cache w.
Proof.
  intros Hout. cbv zeta. unfold outcome, exec in *. rewrite fetch_eq in *.
  pose proof (rejected_store cfg host (retryBudget cfg) 0
                (exec (setStatus Loading) w) e Hout) as Hstore.
  change (cache (exec (setStatus Loading) w)) with (cache w) in Hstore.
  split; [exact Hstore|].
  destruct Hstore as [-> | (key & _ & ->)]; [done|].
  apply delete_subseteq.
Qed.

Lemma rejected_fetch_writes_nothing_witness :
  cache (exec (fetch cachedU1 (failsWith (VStr "boom")))
           (at_time 2000 warmWorld)) ⊆ cache warmWorld ∧
  cache (exec (fetch cachedU1 (failsWith (VStr "boom")))
           (at_time 2000 warmWorld)) !! "u1"%string = None.
Proof.
  pose proof (rejected_fetch_writes_nothing cachedU1 (failsWith (VStr "boom"))
                (at_time 2000 warmWorld) (VStr "boom") eq_refl)
    as [_ Hsub].
  split; [exact Hsub | reflexivity].
Defined.
